(** * StaffManager (src/components/Staff/index.tsx): roster state transitions

    A shallow embedding of the React component [StaffManager]: its state
    variables, its event handlers, its two effects (load on mount, save on
    roster change) and the asynchronous callbacks attached to the storage
    promises, followed by the properties of the roster operations. *)

From Stdlib Require Import ZArith.
From stdpp Require Import base option list strings gmap pretty.

Open Scope Z_scope.
Open Scope string_scope.
Open Scope list_scope.

(** ** Data model

    The three record types each have a field [id] in the source; they are
    [sale_id], [discount_id] and [staff_id] here. *)

(** Values that are only stored and copied by the component: optional profile
    fields, rejection reasons, and whatever [storage.staff.load] may resolve
    to when it is not an array. *)
Inductive JSValue :=
| VUndefined
| VNull
| VBool (b : bool)
| VNum (n : Z)
| VStr (s : string)
| VObject.

#[global] Instance JSValue_eq_dec : EqDecision JSValue.
Proof. solve_decision. Defined.

(** Modelled from the spec: the type declarations of types/staff are not
    part of the sources; a discount's [status] is active or cancelled. *)
Inductive DiscountStatus := active | cancelled.

#[global] Instance DiscountStatus_eq_dec : EqDecision DiscountStatus.
Proof. solve_decision. Defined.

(** Modelled from the spec: the declaration of [Sale] (types/staff) is not
    part of the sources.  A sale has an [id] and a [commissionPaid] flag; its
    other fields, which the component never reads, are kept in a property
    map. *)
Record Sale := mkSale {
  sale_id : string;
  commissionPaid : bool;
  sale_rest : gmap string JSValue
}.

(** Modelled from the spec: the declaration of [Discount] (types/staff) is not
    part of the sources.  A discount has an [id], a [date], an [amount], a
    [reason], a [status] and an optional [cancellationReason].  Amounts are
    only stored and copied, never computed with. *)
Record Discount := mkDiscount {
  discount_id : string;
  date : string;
  amount : Z;
  reason : string;
  status : DiscountStatus;
  cancellationReason : option string
}.

(** Modelled from the spec: the declaration of [Staff] (types/staff) is not
    part of the sources.  A member has an [id], a [name], a [code], further
    profile fields, [sales] and [discounts].  The profile fields the
    component never reads are kept in a property map, so that object spread
    keeps its merge behaviour on optional fields. *)
Record Staff := mkStaff {
  staff_id : string;
  name : string;
  code : string;
  profile : gmap string JSValue;
  sales : list Sale;
  discounts : list Discount
}.

(** [Omit<Staff, 'id' | 'sales' | 'discounts'>]: what the form submits. *)
Record StaffData := mkStaffData {
  data_name : string;
  data_code : string;
  data_profile : gmap string JSValue
}.

#[global] Instance Sale_eq_dec : EqDecision Sale.
Proof. solve_decision. Defined.
#[global] Instance Discount_eq_dec : EqDecision Discount.
Proof. solve_decision. Defined.
#[global] Instance Staff_eq_dec : EqDecision Staff.
Proof. solve_decision. Defined.

(** What [storage.staff.load()] resolves to: an array of members, or anything
    else, on which [Array.isArray] is false. *)
Inductive Loaded :=
| LArray (data : list Staff)
| LOther (v : JSValue).

(** ** Object spread and the JavaScript primitives the handlers use *)

(** [Date.now().toString()]: the clock value is an integer number of
    milliseconds, far below 1e21 in magnitude, so its rendering is the plain
    decimal numeral. *)
Definition toString (now : Z) : string := pretty now.

(** [{ ...staffData, id, sales: [], discounts: [] }] *)
Definition newStaffOf (staffData : StaffData) (i : string) : Staff :=
  {| staff_id := i;
     name := data_name staffData;
     code := data_code staffData;
     profile := data_profile staffData;
     sales := [];
     discounts := [] |}.

(** [{ ...s, ...staffData }]: the properties of [staffData] win, every other
    property of [s] stays. *)
Definition spreadData (s : Staff) (staffData : StaffData) : Staff :=
  {| staff_id := staff_id s;
     name := data_name staffData;
     code := data_code staffData;
     profile := data_profile staffData ∪ profile s;
     sales := sales s;
     discounts := discounts s |}.

(** [{ ...s, discounts: ds }] *)
Definition withDiscounts (s : Staff) (ds : list Discount) : Staff :=
  {| staff_id := staff_id s; name := name s; code := code s;
     profile := profile s; sales := sales s; discounts := ds |}.

(** [{ ...s, sales: ss }] *)
Definition withSales (s : Staff) (ss : list Sale) : Staff :=
  {| staff_id := staff_id s; name := name s; code := code s;
     profile := profile s; sales := ss; discounts := discounts s |}.

(** [{ ...s, sales: [], discounts: [] }] *)
Definition clearedHistory (s : Staff) : Staff :=
  {| staff_id := staff_id s; name := name s; code := code s;
     profile := profile s; sales := []; discounts := [] |}.

(** [{ ...d, status: 'cancelled', cancellationReason: reason }] *)
Definition cancelDiscount (d : Discount) (r : string) : Discount :=
  {| discount_id := discount_id d; date := date d; amount := amount d;
     reason := reason d; status := cancelled; cancellationReason := Some r |}.

(** [{ ...sale, commissionPaid }] *)
Definition withCommission (sale : Sale) (paid : bool) : Sale :=
  {| sale_id := sale_id sale; commissionPaid := paid;
     sale_rest := sale_rest sale |}.

(** ** Component state and the outside world *)

(** The nine [useState] cells of the component. *)
Record State := mkState {
  staff : list Staff;
  showStaffForm : bool;
  editingStaff : option Staff;
  selectedStaff : option Staff;
  cancellingDiscountId : option string;
  discountingStaff : option Staff;
  deletingStaffId : option string;
  clearingHistoryStaff : option Staff;
  deleteError : string
}.

(** Which call of [storage.staff.save] a request comes from; it decides the
    rejection callback attached to the promise.  The delete handler's
    callback closes over the roster of the render it ran in. *)
Inductive SaveOrigin :=
| OnChange
| AfterDelete (previous : list Staff)
| AfterClear.

Record SaveRequest := mkSave {
  saved : list Staff;
  origin : SaveOrigin
}.

Record World := mkWorld {
  ui : State;
  console : list (string * JSValue);
  alerts : list string;
  requests : list SaveRequest;
  inflight : list SaveRequest;
  loading : bool;
  staffStored : bool
}.

(** ** A state monad for handler bodies *)

Definition Comp (A : Type) : Type := World → A * World.

Definition ret {A} (a : A) : Comp A := fun w => (a, w).
Definition bind {A B} (c : Comp A) (k : A → Comp B) : Comp B :=
  fun w => let (a, w') := c w in k a w'.
Definition exec {A} (c : Comp A) (w : World) : World := snd (c w).

Declare Scope comp_scope.
Delimit Scope comp_scope with comp.
Bind Scope comp_scope with Comp.
Notation "x ← y ; z" := (bind y (fun x => z))
  (at level 20, y at level 100, z at level 200, only parsing) : comp_scope.
Notation "x ;; z" := (bind x (fun _ => z))
  (at level 100, z at level 200, only parsing, right associativity) : comp_scope.

(** The state of the render whose closures are running. *)
Definition render : Comp State := fun w => (ui w, w).

Definition modifyUi (f : State → State) : Comp unit :=
  fun w => (tt, {| ui := f (ui w); console := console w; alerts := alerts w;
                   requests := requests w; inflight := inflight w;
                   loading := loading w; staffStored := staffStored w |}).

(** [setStaff] stores a new array; the flag records that the dependency of
    the save effect changed. *)
Definition setStaff (v : list Staff) : Comp unit :=
  fun w => (tt, {| ui := {| staff := v;
                            showStaffForm := showStaffForm (ui w);
                            editingStaff := editingStaff (ui w);
                            selectedStaff := selectedStaff (ui w);
                            cancellingDiscountId := cancellingDiscountId (ui w);
                            discountingStaff := discountingStaff (ui w);
                            deletingStaffId := deletingStaffId (ui w);
                            clearingHistoryStaff := clearingHistoryStaff (ui w);
                            deleteError := deleteError (ui w) |};
                   console := console w; alerts := alerts w;
                   requests := requests w; inflight := inflight w;
                   loading := loading w; staffStored := true |}).

Definition setShowStaffForm (v : bool) : Comp unit :=
  modifyUi (fun s =>
    {| staff := staff s; showStaffForm := v; editingStaff := editingStaff s;
       selectedStaff := selectedStaff s;
       cancellingDiscountId := cancellingDiscountId s;
       discountingStaff := discountingStaff s;
       deletingStaffId := deletingStaffId s;
       clearingHistoryStaff := clearingHistoryStaff s;
       deleteError := deleteError s |}).

Definition setEditingStaff (v : option Staff) : Comp unit :=
  modifyUi (fun s =>
    {| staff := staff s; showStaffForm := showStaffForm s; editingStaff := v;
       selectedStaff := selectedStaff s;
       cancellingDiscountId := cancellingDiscountId s;
       discountingStaff := discountingStaff s;
       deletingStaffId := deletingStaffId s;
       clearingHistoryStaff := clearingHistoryStaff s;
       deleteError := deleteError s |}).

Definition setSelectedStaff (v : option Staff) : Comp unit :=
  modifyUi (fun s =>
    {| staff := staff s; showStaffForm := showStaffForm s;
       editingStaff := editingStaff s; selectedStaff := v;
       cancellingDiscountId := cancellingDiscountId s;
       discountingStaff := discountingStaff s;
       deletingStaffId := deletingStaffId s;
       clearingHistoryStaff := clearingHistoryStaff s;
       deleteError := deleteError s |}).

Definition setCancellingDiscountId (v : option string) : Comp unit :=
  modifyUi (fun s =>
    {| staff := staff s; showStaffForm := showStaffForm s;
       editingStaff := editingStaff s; selectedStaff := selectedStaff s;
       cancellingDiscountId := v;
       discountingStaff := discountingStaff s;
       deletingStaffId := deletingStaffId s;
       clearingHistoryStaff := clearingHistoryStaff s;
       deleteError := deleteError s |}).

Definition setDiscountingStaff (v : option Staff) : Comp unit :=
  modifyUi (fun s =>
    {| staff := staff s; showStaffForm := showStaffForm s;
       editingStaff := editingStaff s; selectedStaff := selectedStaff s;
       cancellingDiscountId := cancellingDiscountId s;
       discountingStaff := v;
       deletingStaffId := deletingStaffId s;
       clearingHistoryStaff := clearingHistoryStaff s;
       deleteError := deleteError s |}).

Definition setDeletingStaffId (v : option string) : Comp unit :=
  modifyUi (fun s =>
    {| staff := staff s; showStaffForm := showStaffForm s;
       editingStaff := editingStaff s; selectedStaff := selectedStaff s;
       cancellingDiscountId := cancellingDiscountId s;
       discountingStaff := discountingStaff s;
       deletingStaffId := v;
       clearingHistoryStaff := clearingHistoryStaff s;
       deleteError := deleteError s |}).

Definition setClearingHistoryStaff (v : option Staff) : Comp unit :=
  modifyUi (fun s =>
    {| staff := staff s; showStaffForm := showStaffForm s;
       editingStaff := editingStaff s; selectedStaff := selectedStaff s;
       cancellingDiscountId := cancellingDiscountId s;
       discountingStaff := discountingStaff s;
       deletingStaffId := deletingStaffId s;
       clearingHistoryStaff := v;
       deleteError := deleteError s |}).

Definition setDeleteError (v : string) : Comp unit :=
  modifyUi (fun s =>
    {| staff := staff s; showStaffForm := showStaffForm s;
       editingStaff := editingStaff s; selectedStaff := selectedStaff s;
       cancellingDiscountId := cancellingDiscountId s;
       discountingStaff := discountingStaff s;
       deletingStaffId := deletingStaffId s;
       clearingHistoryStaff := clearingHistoryStaff s;
       deleteError := v |}).

(** [console.error(label, error)] *)
Definition consoleError (label : string) (error : JSValue) : Comp unit :=
  fun w => (tt, {| ui := ui w; console := console w ++ [(label, error)];
                   alerts := alerts w; requests := requests w;
                   inflight := inflight w; loading := loading w;
                   staffStored := staffStored w |}).

(** [alert(message)] *)
Definition alert (message : string) : Comp unit :=
  fun w => (tt, {| ui := ui w; console := console w;
                   alerts := alerts w ++ [message]; requests := requests w;
                   inflight := inflight w; loading := loading w;
                   staffStored := staffStored w |}).

(** [storage.staff.save(roster)]: the call is logged in [requests] and the
    promise stays in [inflight] until it settles. *)
Definition storageSave (roster : list Staff) (o : SaveOrigin) : Comp unit :=
  fun w => (tt, {| ui := ui w; console := console w; alerts := alerts w;
                   requests := requests w ++ [mkSave roster o];
                   inflight := inflight w ++ [mkSave roster o];
                   loading := loading w; staffStored := staffStored w |}).

(** The value of a [string | undefined] cell when it is truthy: [undefined]
    and the empty string are both falsy. *)
Definition asTruthy (x : option string) : option string :=
  match x with
  | Some s => if bool_decide (s = "") then None else Some s
  | None => None
  end.

Definition truthyId (x : option string) : bool :=
  match asTruthy x with Some _ => true | None => false end.

Definition isDefined {A} (x : option A) : bool :=
  match x with Some _ => true | None => false end.

(** The inline error of the delete modal. *)
Definition incorrectPassword : string := "Contraseña incorrecta".

(** The message of the blocking [alert] of the delete handler. *)
Definition deleteAlert : string :=
  "Error al eliminar el colaborador. Por favor intente nuevamente.".

(** ** The component *)

Section StaffManager.

(** [validateAdminPassword] (utils/passwords) is a collaborator: a
    synchronous boolean check. *)
Variable validateAdminPassword : string → bool.

Local Open Scope comp_scope.

(** *** Effects *)

(** Body of [loadStaff] after [await storage.staff.load()] resolved. *)
Definition loadResolved (data : Loaded) : Comp unit :=
  match data with
  | LArray l => setStaff l
  | LOther _ => ret tt
  end.

(** The [catch] block of [loadStaff]. *)
Definition loadRejected (error : JSValue) : Comp unit :=
  consoleError "Error loading staff:" error ;;
  setStaff [].

(** "Save staff whenever they change". *)
Definition saveEffect : Comp unit :=
  r ← render;
  if bool_decide (0 < length (staff r))%nat
  then storageSave (staff r) OnChange
  else ret tt.

(** *** Handlers *)

(** [now] is the value of [Date.now()]. *)
Definition handleAddStaff (now : Z) (staffData : StaffData) : Comp unit :=
  r ← render;
  let newStaff := newStaffOf staffData (toString now) in
  setStaff (staff r ++ [newStaff]) ;;
  setShowStaffForm false.

Definition handleEditStaff (staffData : StaffData) : Comp unit :=
  r ← render;
  match editingStaff r with
  | Some editing =>
      setStaff ((fun s =>
                   if bool_decide (staff_id s = staff_id editing)
                   then spreadData s staffData else s) <$> staff r) ;;
      setEditingStaff None ;;
      setShowStaffForm false
  | None => ret tt
  end.

(** [now] is the value of [Date.now()], [isoDate] that of
    [new Date().toISOString()]. *)
Definition handleAddDiscount (now : Z) (isoDate : string)
    (amount : Z) (reason : string) : Comp unit :=
  r ← render;
  match discountingStaff r with
  | Some discounting =>
      let discount :=
        {| discount_id := toString now; date := isoDate; amount := amount;
           reason := reason; status := active;
           cancellationReason := None |} in
      setStaff ((fun s =>
                   if bool_decide (staff_id s = staff_id discounting)
                   then withDiscounts s (discounts s ++ [discount])
                   else s) <$> staff r) ;;
      setDiscountingStaff None
  | None => ret tt
  end.

Definition handleCancelDiscount (reason : string) : Comp unit :=
  r ← render;
  match asTruthy (cancellingDiscountId r), selectedStaff r with
  | Some cancelling, Some selected =>
      setStaff ((fun s =>
                   if bool_decide (staff_id s = staff_id selected)
                   then withDiscounts s
                          ((fun d =>
                              if bool_decide (discount_id d = cancelling)
                              then cancelDiscount d reason else d)
                             <$> discounts s)
                   else s) <$> staff r) ;;
      setCancellingDiscountId None
  | _, _ => ret tt
  end.

Definition handleDeleteStaff (password : string) : Comp unit :=
  r ← render;
  if negb (validateAdminPassword password) then
    setDeleteError incorrectPassword
  else
    match asTruthy (deletingStaffId r) with
    | Some deleting =>
        let updatedStaff :=
          filter (fun s => staff_id s ≠ deleting) (staff r) in
        setStaff updatedStaff ;;
        storageSave updatedStaff (AfterDelete (staff r)) ;;
        setDeletingStaffId None ;;
        setDeleteError ""
    | None => ret tt
    end.

Definition handleClearHistory (password : string) : Comp unit :=
  r ← render;
  if negb (validateAdminPassword password) then
    ret tt
  else
    match clearingHistoryStaff r with
    | Some clearing =>
        let updatedStaff :=
          (fun s =>
             if bool_decide (staff_id s = staff_id clearing)
             then clearedHistory s else s) <$> staff r in
        setStaff updatedStaff ;;
        storageSave updatedStaff AfterClear ;;
        setClearingHistoryStaff None
    | None => ret tt
    end.

Definition handleUpdateSale (staffId saleId : string) (paid : bool)
    : Comp unit :=
  r ← render;
  setStaff ((fun s =>
               if bool_decide (staff_id s = staffId)
               then withSales s
                      ((fun sale =>
                          if bool_decide (sale_id sale = saleId)
                          then withCommission sale paid else sale)
                         <$> sales s)
               else s) <$> staff r).

(** *** Rejection callbacks of the save promises *)

(** What runs when a [storage.staff.save] promise rejects: the [catch] of
    the save effect logs; the [catch] of the delete handler logs, restores
    the roster it closed over and alerts; the clear-history handler
    attaches no callback. *)
Definition saveRejected (o : SaveOrigin) (error : JSValue) : Comp unit :=
  match o with
  | OnChange => consoleError "Error saving staff:" error
  | AfterDelete previous =>
      consoleError "Error saving staff after deletion:" error ;;
      setStaff previous ;;
      alert deleteAlert
  | AfterClear => ret tt
  end.

(** *** Events *)

Inductive Event :=
| ENewClicked
| EOnEdit (member : Staff)
| EOnDelete (staffId : string)
| EOnViewHistory (member : Staff)
| EOnAddDiscount (member : Staff)
| EOnClearHistory (member : Staff)
| EFormSubmit (now : Z) (staffData : StaffData)
| EFormClose
| EHistoryUpdateSale (saleId : string) (paid : bool)
| EHistoryCancelDiscount (discountId : string)
| EHistoryClose
| EDiscountConfirm (now : Z) (isoDate : string) (amount : Z) (reason : string)
| EDiscountClose
| ECancelConfirm (reason : string)
| ECancelClose
| EDeleteConfirm (password : string)
| EDeleteClose
| EClearConfirm (password : string)
| EClearClose
| ELoadResolved (data : Loaded)
| ELoadRejected (error : JSValue)
| ESaveResolved (i : nat)
| ESaveRejected (i : nat) (error : JSValue).

(** Which callbacks the rendered tree offers: the form only while
    [showStaffForm] is set, each modal and the history panel only while its
    selection is truthy, a promise callback only while the promise is
    pending.  The list is rendered only when the roster is non-empty;
    [StaffList] itself is not part of the sources and is taken, as the spec
    describes it, to call back with a member of the roster it received, or
    with the id of one. *)
Definition enabled (e : Event) (w : World) : bool :=
  let r := ui w in
  match e with
  | ENewClicked => true
  | EOnEdit m | EOnViewHistory m | EOnAddDiscount m | EOnClearHistory m =>
      bool_decide (m ∈ staff r)
  | EOnDelete i => bool_decide (i ∈ staff_id <$> staff r)
  | EFormSubmit _ _ | EFormClose => showStaffForm r
  | EHistoryUpdateSale _ _ | EHistoryCancelDiscount _ | EHistoryClose =>
      isDefined (selectedStaff r)
  | EDiscountConfirm _ _ _ _ | EDiscountClose =>
      isDefined (discountingStaff r)
  | ECancelConfirm _ | ECancelClose => truthyId (cancellingDiscountId r)
  | EDeleteConfirm _ | EDeleteClose => truthyId (deletingStaffId r)
  | EClearConfirm _ | EClearClose => isDefined (clearingHistoryStaff r)
  | ELoadResolved _ | ELoadRejected _ => loading w
  | ESaveResolved i | ESaveRejected i _ =>
      bool_decide (i < length (inflight w))%nat
  end.

Definition loadSettled : Comp unit :=
  fun w => (tt, {| ui := ui w; console := console w; alerts := alerts w;
                   requests := requests w; inflight := inflight w;
                   loading := false; staffStored := staffStored w |}).

Definition saveSettled (i : nat) : Comp (option SaveRequest) :=
  fun w => (inflight w !! i,
            {| ui := ui w; console := console w; alerts := alerts w;
               requests := requests w; inflight := delete i (inflight w);
               loading := loading w; staffStored := staffStored w |}).

Definition handle (e : Event) : Comp unit :=
  match e with
  | ENewClicked => setEditingStaff None ;; setShowStaffForm true
  | EOnEdit member => setEditingStaff (Some member) ;; setShowStaffForm true
  | EOnDelete staffId => setDeletingStaffId (Some staffId)
  | EOnViewHistory member => setSelectedStaff (Some member)
  | EOnAddDiscount member => setDiscountingStaff (Some member)
  | EOnClearHistory member => setClearingHistoryStaff (Some member)
  | EFormSubmit now staffData =>
      r ← render;
      if isDefined (editingStaff r)
      then handleEditStaff staffData
      else handleAddStaff now staffData
  | EFormClose => setShowStaffForm false ;; setEditingStaff None
  | EHistoryUpdateSale saleId paid =>
      r ← render;
      match selectedStaff r with
      | Some selected => handleUpdateSale (staff_id selected) saleId paid
      | None => ret tt
      end
  | EHistoryCancelDiscount discountId =>
      setCancellingDiscountId (Some discountId)
  | EHistoryClose => setSelectedStaff None
  | EDiscountConfirm now isoDate amount reason =>
      handleAddDiscount now isoDate amount reason
  | EDiscountClose => setDiscountingStaff None
  | ECancelConfirm reason => handleCancelDiscount reason
  | ECancelClose => setCancellingDiscountId None
  | EDeleteConfirm password => handleDeleteStaff password
  | EDeleteClose => setDeletingStaffId None ;; setDeleteError ""
  | EClearConfirm password => handleClearHistory password
  | EClearClose => setClearingHistoryStaff None
  | ELoadResolved data => loadSettled ;; loadResolved data
  | ELoadRejected error => loadSettled ;; loadRejected error
  | ESaveResolved i => _ ← saveSettled i; ret tt
  | ESaveRejected i error =>
      q ← saveSettled i;
      match q with
      | Some q => saveRejected (origin q) error
      | None => ret tt
      end
  end.

(** The whole world, as the event loop sees it after a callback. *)
Definition current : Comp World := fun w => (w, w).

Definition clearStored : Comp unit :=
  fun w => (tt, {| ui := ui w; console := console w; alerts := alerts w;
                   requests := requests w; inflight := inflight w;
                   loading := loading w; staffStored := false |}).

(** One turn of the event loop: the callback runs, and when it stored a
    roster the component re-renders and the save effect runs. *)
Definition dispatch (e : Event) : Comp unit :=
  clearStored ;;
  handle e ;;
  w ← current;
  if staffStored w then saveEffect else ret tt.

Definition initialState : State :=
  {| staff := []; showStaffForm := false; editingStaff := None;
     selectedStaff := None; cancellingDiscountId := None;
     discountingStaff := None; deletingStaffId := None;
     clearingHistoryStaff := None; deleteError := "" |}.

(** After the first render: [loadStaff()] is pending and the save effect
    has run on the empty roster. *)
Definition mounted : World :=
  exec saveEffect
    {| ui := initialState; console := []; alerts := []; requests := [];
       inflight := []; loading := true; staffStored := false |}.

Inductive reachable : World → Prop :=
| reach_mount : reachable mounted
| reach_step e w :
    reachable w → enabled e w = true → reachable (exec (dispatch e) w).

(** Running a list of events from a world. *)
Fixpoint run (es : list Event) (w : World) : World :=
  match es with
  | [] => w
  | e :: es' => run es' (exec (dispatch e) w)
  end.

Fixpoint allEnabled (es : list Event) (w : World) : bool :=
  match es with
  | [] => true
  | e :: es' => enabled e w && allEnabled es' (exec (dispatch e) w)
  end.

End StaffManager.

(** The shape shared by the handlers' updates,
    [l.map(x => x.id === k ? f(x) : x)]. *)
Definition replaceById {A} (key : A → string) (f : A → A) (k : string)
    (l : list A) : list A :=
  (fun x => if bool_decide (key x = k) then f x else x) <$> l.

(** ** Object identity

    The handlers never mutate an object: [map] builds a new array whose
    entries are either the very object of the old array (the callback returns
    [s]) or a freshly allocated one (the callback returns an object literal).
    To speak about reference identity the objects are placed in a store,
    addressed by position, and a roster is a list of addresses. *)

Definition Ref := nat.

(** The callback of [handleEditStaff]'s [map], telling a fresh object
    ([Some]) from the argument returned as is ([None]). *)
Definition editCallback (editing : Staff) (staffData : StaffData)
    (s : Staff) : option Staff :=
  if bool_decide (staff_id s = staff_id editing)
  then Some (spreadData s staffData) else None.

(** [roster.map(callback)] on addresses: a fresh object goes to the next free
    address, an object returned as is keeps its address. *)
Fixpoint mapRefs (callback : Staff → option Staff)
    (store : list Staff) (roster : list Ref) : list Staff * list Ref :=
  match roster with
  | [] => (store, [])
  | r :: rest =>
      match store !! r ≫= callback with
      | Some fresh =>
          let (store', out) := mapRefs callback (store ++ [fresh]) rest in
          (store', length store :: out)
      | None =>
          let (store', out) := mapRefs callback store rest in
          (store', r :: out)
      end
  end.

(** The array of addresses [roster] denotes the array of objects [l]. *)
Definition denotes (store : list Staff) (roster : list Ref)
    (l : list Staff) : Prop :=
  Forall2 (fun r s => store !! r = Some s) roster l.

(** ** Concrete inputs used to run the component *)

Definition sampleCheck (password : string) : bool :=
  bool_decide (password = "admin").

Definition ana : StaffData :=
  {| data_name := "Ana"; data_code := "A1"; data_profile := ∅ |}.

Definition luis : StaffData :=
  {| data_name := "Luis"; data_code := "L2";
     data_profile := {[ "phone" := VStr "555" ]} |}.

Definition tick : Z := 1700000000000.

(** Two members created at the same clock value. *)
Definition twoAtOneTick : list Event :=
  [ ENewClicked; EFormSubmit tick ana; ENewClicked; EFormSubmit tick luis ].

Definition anaMember : Staff := newStaffOf ana (toString tick).
Definition luisMember : Staff := newStaffOf luis (toString tick).

Definition promo : Discount :=
  {| discount_id := toString (tick + 1); date := "2023-11-14T22:13:20.001Z";
     amount := 50; reason := "promo"; status := active;
     cancellationReason := None |}.

(** Both members then receive a discount through the modal opened on the
    first one. *)
Definition twoWithDiscount : list Event :=
  twoAtOneTick ++
  [ EOnAddDiscount anaMember;
    EDiscountConfirm (tick + 1) "2023-11-14T22:13:20.001Z" 50 "promo" ].

(** Every save of the change-triggered path carries a non-empty roster. *)
Definition changeSavesNonEmpty (l : list SaveRequest) : Prop :=
  Forall (fun q => origin q = OnChange → saved q ≠ []) l.

(** The one member created by submitting the form, then deleted. *)
Definition addThenDelete (now : Z) (staffData : StaffData)
    (password : string) : list Event :=
  [ ENewClicked; EFormSubmit now staffData;
    EOnDelete (toString now); EDeleteConfirm password ].

Definition renamed : StaffData :=
  {| data_name := "Ana Maria"; data_code := "A1"; data_profile := ∅ |}.

Definition anaWithPromo : Staff := withDiscounts anaMember [promo].
Definition luisWithPromo : Staff := withDiscounts luisMember [promo].
Definition luisLater : Staff := newStaffOf luis (toString (tick + 5)).

(** Two members created at different clock values. *)
Definition twoAtTwoTicks : list Event :=
  [ ENewClicked; EFormSubmit tick ana;
    ENewClicked; EFormSubmit (tick + 5) luis ].

(** ** Further vocabulary for the remaining handlers *)

(** The ids of the roster, in roster order. *)
Definition memberIds (w : World) : list string :=
  staff_id <$> staff (ui w).

(** The object literal built by [handleAddDiscount]. *)
Definition activeDiscount (now : Z) (isoDate : string) (amount : Z)
    (reason : string) : Discount :=
  {| discount_id := toString now; date := isoDate; amount := amount;
     reason := reason; status := active; cancellationReason := None |}.

(** [handleAddStaff] called once per entry, oldest first. *)
Definition addAll (entries : list (Z * StaffData)) (w : World) : World :=
  foldl (fun w e => exec (handleAddStaff e.1 e.2) w) w entries.

(** Every pending rollback of a delete would restore a roster with pairwise
    distinct ids. *)
Definition rollbacksUnique (l : list SaveRequest) : Prop :=
  Forall (fun q => ∀ previous, origin q = AfterDelete previous →
                     NoDup (staff_id <$> previous)) l.

(** The ids of the roster are pairwise distinct, now and after any pending
    rollback. *)
Definition uniqueIds (w : World) : Prop :=
  NoDup (memberIds w) ∧ rollbacksUnique (inflight w).

(** The events that bring ids in from outside: a submission in add mode must
    come at a clock value whose rendering is not an id of the roster, and a
    loaded array must have pairwise distinct ids. *)
Definition bringsFreshIds (e : Event) (w : World) : Prop :=
  match e with
  | EFormSubmit now _ =>
      isDefined (editingStaff (ui w)) = true ∨ toString now ∉ memberIds w
  | ELoadResolved (LArray l) => NoDup (staff_id <$> l)
  | _ => True
  end.

(** Every event of a run brings in fresh ids only, judged in the world it
    arrives in. *)
Fixpoint freshRun (validateAdminPassword : string → bool)
    (es : list Event) (w : World) : Prop :=
  match es with
  | [] => True
  | e :: es' =>
      bringsFreshIds e w ∧
      freshRun validateAdminPassword es'
        (exec (dispatch validateAdminPassword e) w)
  end.

(** Two members with distinct ids, the discount modal open on the first. *)
Definition discountOpen : list Event :=
  twoAtTwoTicks ++ [EOnAddDiscount anaMember].

(** The discount confirmed, the history of the first member open, and the
    cancel modal open on that discount. *)
Definition cancelOpen : list Event :=
  discountOpen ++
  [ EDiscountConfirm (tick + 1) (date promo) 50 "promo";
    EOnViewHistory anaWithPromo;
    EHistoryCancelDiscount (discount_id promo) ].

Definition withPhone : StaffData :=
  {| data_name := "Ana M."; data_code := "A7";
     data_profile := {[ "phone" := VStr "777" ]} |}.

(** Every modal is opened on the first member, then the load resolves to an
    array that does not hold that member. *)
Definition selectionsOutlived : list Event :=
  twoAtTwoTicks ++
  [ EOnEdit anaMember; EOnAddDiscount anaMember; EOnViewHistory anaMember;
    EOnClearHistory anaMember; EOnDelete (staff_id anaMember);
    EHistoryCancelDiscount (discount_id promo);
    ELoadResolved (LArray [luisLater]) ].

(** A member loaded from the storage with one unpaid sale. *)
Definition unpaidSale : Sale :=
  {| sale_id := "s1"; commissionPaid := false;
     sale_rest := {[ "total" := VNum 120 ]} |}.

Definition seller : Staff := withSales anaMember [unpaidSale].

(** * Properties *)

Create HintDb comp discriminated.
#[global] Hint Unfold exec bind ret render modifyUi setStaff setShowStaffForm
  setEditingStaff setSelectedStaff setCancellingDiscountId
  setDiscountingStaff setDeletingStaffId setClearingHistoryStaff
  setDeleteError consoleError alert storageSave : comp.

Ltac step_comp := autounfold with comp; cbn.

(** ** Generalities on [map] with a by-id callback *)

Section ById.

Context {A : Type} (key : A → string) (f : A → A).

Local Abbreviation replaceById := (replaceById key f).

Lemma replaceById_lookup k l i x :
  l !! i = Some x →
  replaceById k l !! i = Some (if bool_decide (key x = k) then f x else x).
Proof. intros H. unfold replaceById. by rewrite list_lookup_fmap, H. Qed.

Lemma replaceById_other k l i x :
  l !! i = Some x → key x ≠ k → replaceById k l !! i = Some x.
Proof.
  intros H Hne. rewrite (replaceById_lookup _ _ _ _ H).
  by rewrite bool_decide_eq_false_2.
Qed.

Lemma replaceById_match k l i x :
  l !! i = Some x → key x = k → replaceById k l !! i = Some (f x).
Proof.
  intros H He. rewrite (replaceById_lookup _ _ _ _ H).
  by rewrite bool_decide_eq_true_2.
Qed.

Lemma replaceById_length k l : length (replaceById k l) = length l.
Proof. unfold replaceById. apply length_fmap. Qed.

Lemma replaceById_keys k l :
  (∀ x, key (f x) = key x) → key <$> replaceById k l = key <$> l.
Proof.
  intros Hk. unfold replaceById. rewrite <- list_fmap_compose.
  apply list_fmap_ext. intros _ x _. simpl. by case_bool_decide.
Qed.

(** With pairwise distinct keys, the only entry that can be replaced is the
    one entry carrying the key. *)
Lemma NoDup_keys_same (l : list A) x y :
  NoDup (key <$> l) → x ∈ l → y ∈ l → key x = key y → x = y.
Proof.
  intros Hnd Hx Hy Hk.
  apply list_elem_of_lookup in Hx as [i Hi].
  apply list_elem_of_lookup in Hy as [j Hj].
  assert (i = j) as ->.
  { eapply NoDup_lookup; [exact Hnd | |].
    - rewrite list_lookup_fmap, Hi. reflexivity.
    - rewrite list_lookup_fmap, Hj. simpl. by rewrite Hk. }
  congruence.
Qed.

End ById.

Section Properties.

Variable validateAdminPassword : string → bool.


(** C7.  [handleAddStaff] yields the old roster followed by one new member:
    the length grows by exactly one, the last element is the new member, whose
    [sales] and [discounts] are empty and whose id is the rendering of the
    clock, and every old member stays at its position, unchanged. *)
Theorem handleAddStaff_appends (now : Z) (staffData : StaffData) (w : World) :
  let roster := staff (ui w) in
  let roster' := staff (ui (exec (handleAddStaff now staffData) w)) in
  roster' = roster ++ [newStaffOf staffData (toString now)] ∧
  length roster' = S (length roster) ∧
  (∃ m, last roster' = Some m ∧ sales m = [] ∧ discounts m = [] ∧
        staff_id m = toString now ∧ name m = data_name staffData ∧
        code m = data_code staffData ∧ profile m = data_profile staffData) ∧
  (∀ i s, roster !! i = Some s → roster' !! i = Some s).
Proof.
  step_comp. split_and!.
  - reflexivity.
  - rewrite length_app. simpl. lia.
  - eexists. rewrite last_snoc. by split_and!.
  - intros i s H. by apply lookup_app_l_Some.
Qed.

(** ** Truthiness of id cells *)

Lemma asTruthy_Some (x : option string) (d : string) :
  asTruthy x = Some d ↔ x = Some d ∧ d ≠ "".
Proof.
  unfold asTruthy. destruct x as [s|]; [|split; [done | by intros [? _]]].
  case_bool_decide; split; intros; destruct_and?; by simplify_eq.
Qed.

Lemma asTruthy_set (d : string) : d ≠ "" → asTruthy (Some d) = Some d.
Proof. intros. by apply asTruthy_Some. Qed.

Lemma asTruthy_empty : asTruthy (Some "") = None.
Proof. reflexivity. Qed.

(** ** Filtering a roster by id *)

Lemma filter_keeps_all (d : string) (l : list Staff) :
  d ∉ staff_id <$> l → filter (fun s => staff_id s ≠ d) l = l.
Proof.
  induction l as [|x l IH]; [done|].
  rewrite fmap_cons, not_elem_of_cons. intros [Hx Hl].
  rewrite filter_cons_True by congruence. by rewrite IH.
Qed.

(** With pairwise distinct ids, filtering an id out removes the one member
    that carries it. *)
Lemma filter_removes_one (d : string) (l1 l2 : list Staff) (m : Staff) :
  NoDup (staff_id <$> (l1 ++ m :: l2)) → staff_id m = d →
  filter (fun s => staff_id s ≠ d) (l1 ++ m :: l2) = l1 ++ l2.
Proof.
  intros Hnd Hm. rewrite fmap_app, fmap_cons in Hnd.
  apply NoDup_app in Hnd as (_ & Hdisj & Hnd2).
  apply NoDup_cons in Hnd2 as [Hm2 _].
  rewrite filter_app, filter_cons_False by (intros Hc; by apply Hc).
  rewrite !filter_keeps_all; [done | by rewrite <- Hm |].
  intros Hin. apply (Hdisj _ Hin). rewrite <- Hm. apply elem_of_cons. by left.
Qed.

(** ** Deleting a member *)

Lemma handleDeleteStaff_invalid (password : string) (w : World) :
  validateAdminPassword password = false →
  exec (handleDeleteStaff validateAdminPassword password) w =
  exec (setDeleteError incorrectPassword) w.
Proof. intros Hv. unfold handleDeleteStaff. step_comp. by rewrite Hv. Qed.

Lemma handleDeleteStaff_valid (password d : string) (w : World) :
  validateAdminPassword password = true →
  asTruthy (deletingStaffId (ui w)) = Some d →
  let updatedStaff := filter (fun s => staff_id s ≠ d) (staff (ui w)) in
  exec (handleDeleteStaff validateAdminPassword password) w =
  exec (setStaff updatedStaff ;;
        storageSave updatedStaff (AfterDelete (staff (ui w))) ;;
        setDeletingStaffId None ;;
        setDeleteError "")%comp w.
Proof.
  intros Hv Hd. unfold handleDeleteStaff. step_comp. by rewrite Hv, Hd.
Qed.

(** The guard [if (deletingStaffId)] skips the empty string as it skips
    [undefined]: nothing is removed, nothing is saved. *)
Lemma handleDeleteStaff_falsy (password : string) (w : World) :
  validateAdminPassword password = true →
  asTruthy (deletingStaffId (ui w)) = None →
  exec (handleDeleteStaff validateAdminPassword password) w = w.
Proof.
  intros Hv Hd. unfold handleDeleteStaff. step_comp. by rewrite Hv, Hd.
Qed.

(** C1 (amended).  With a rejected password the roster is unchanged and the
    non-empty message [incorrectPassword] is recorded.  With an accepted
    password and a non-empty pending deletion id, the new roster is the old
    one without the members carrying that id, the others unchanged and in
    order; when the ids of the roster are pairwise distinct that is the old
    roster with exactly the one member of that id removed. *)
Theorem handleDeleteStaff_spec (password : string) (w : World) :
  let w' := exec (handleDeleteStaff validateAdminPassword password) w in
  (validateAdminPassword password = false →
     staff (ui w') = staff (ui w) ∧
     deleteError (ui w') = incorrectPassword ∧
     deleteError (ui w') ≠ "") ∧
  (∀ d, validateAdminPassword password = true →
     deletingStaffId (ui w) = Some d → d ≠ "" →
     staff (ui w') = filter (fun s => staff_id s ≠ d) (staff (ui w)) ∧
     (∀ s, s ∈ staff (ui w') ↔ s ∈ staff (ui w) ∧ staff_id s ≠ d) ∧
     (NoDup (staff_id <$> staff (ui w)) →
      ∀ l1 m l2, staff (ui w) = l1 ++ m :: l2 → staff_id m = d →
                 staff (ui w') = l1 ++ l2)).
Proof.
  intros w'. split.
  - intros Hv. subst w'. rewrite handleDeleteStaff_invalid by done.
    step_comp. by split_and!.
  - intros d Hv Hd Hne. subst w'.
    rewrite (handleDeleteStaff_valid _ d) by (by rewrite ?Hd; try apply asTruthy_set).
    step_comp. split_and!.
    + reflexivity.
    + intros s. rewrite list_elem_of_filter. tauto.
    + intros Hnd l1 m l2 El Hm. rewrite El in Hnd |- *.
      by apply filter_removes_one.
Qed.

(** ** Clearing history *)

(** C6.  With a rejected password [handleClearHistory] returns at once: the
    roster, the pending clear-history selection, the error cell, the console
    and the alerts are what they were, and no save is issued; the delete
    handler, on the same password, records its non-empty inline error. *)
Theorem handleClearHistory_rejected_silently (password : string) (w : World) :
  validateAdminPassword password = false →
  let w' := exec (handleClearHistory validateAdminPassword password) w in
  w' = w ∧
  staff (ui w') = staff (ui w) ∧
  clearingHistoryStaff (ui w') = clearingHistoryStaff (ui w) ∧
  deleteError (ui w') = deleteError (ui w) ∧
  console w' = console w ∧ alerts w' = alerts w ∧
  requests w' = requests w ∧
  deleteError (ui (exec (handleDeleteStaff validateAdminPassword password) w)) ≠ "".
Proof.
  intros Hv w'.
  assert (w' = w) as ->.
  { subst w'. unfold handleClearHistory. step_comp. by rewrite Hv. }
  split_and!; try reflexivity.
  rewrite handleDeleteStaff_invalid by done. by step_comp.
Qed.

(** ** Rollback when the save after a deletion fails *)

Lemma dispatch_unfold (e : Event) (w : World) :
  exec (dispatch validateAdminPassword e) w =
  let w1 := exec (handle validateAdminPassword e) (exec clearStored w) in
  if staffStored w1 then exec saveEffect w1 else w1.
Proof.
  unfold dispatch, exec, bind. simpl.
  destruct (handle validateAdminPassword e _) as [[] w1]. simpl.
  by destruct (staffStored w1).
Qed.

Lemma saveEffect_ui (w : World) : ui (exec saveEffect w) = ui w.
Proof. unfold saveEffect. step_comp. by case_bool_decide. Qed.

Lemma saveEffect_alerts (w : World) : alerts (exec saveEffect w) = alerts w.
Proof. unfold saveEffect. step_comp. by case_bool_decide. Qed.

Lemma saveEffect_console (w : World) : console (exec saveEffect w) = console w.
Proof. unfold saveEffect. step_comp. by case_bool_decide. Qed.

(** What the rejection callback of the delete handler does, from any later
    world. *)
Lemma saveRejected_AfterDelete (previous : list Staff) (error : JSValue)
    (w : World) :
  let w' := exec (saveRejected (AfterDelete previous) error) w in
  staff (ui w') = previous ∧
  alerts w' = alerts w ++ [deleteAlert] ∧
  console w' = console w ++ [("Error saving staff after deletion:", error)] ∧
  staffStored w' = true.
Proof. by step_comp. Qed.

Lemma handleDeleteStaff_requests (password : string) (w : World) :
  requests (exec (handleDeleteStaff validateAdminPassword password) w) =
  if validateAdminPassword password then
    match asTruthy (deletingStaffId (ui w)) with
    | Some d =>
        requests w ++
        [ {| saved := filter (fun s => staff_id s ≠ d) (staff (ui w));
             origin := AfterDelete (staff (ui w)) |} ]
    | None => requests w
    end
  else requests w.
Proof.
  unfold handleDeleteStaff. step_comp.
  destruct (validateAdminPassword password); [|done]. simpl.
  by destruct (asTruthy _).
Qed.

Lemma app_singleton_neq {A} (l : list A) (x : A) : l ≠ l ++ [x].
Proof.
  intros H. apply (f_equal length) in H. rewrite length_app in H.
  simpl in H. lia.
Qed.

(** C2.  Whenever [handleDeleteStaff] issues its save, the request carries
    the roster of before the deletion; when that save is rejected, at any
    later moment and whatever happened in between, the roster is set back to
    exactly the pre-deletion roster, the failure is logged and the alert is
    shown.  The same holds when the rejection is delivered by the event
    loop. *)
Theorem handleDeleteStaff_rollback (password : string) (w : World)
    (q : SaveRequest) :
  requests (exec (handleDeleteStaff validateAdminPassword password) w) = requests w ++ [q] →
  origin q = AfterDelete (staff (ui w)) ∧
  (∃ d, deletingStaffId (ui w) = Some d ∧
        saved q = filter (fun s => staff_id s ≠ d) (staff (ui w))) ∧
  (∀ error later,
     let w' := exec (saveRejected (origin q) error) later in
     staff (ui w') = staff (ui w) ∧
     alerts w' = alerts later ++ [deleteAlert] ∧
     console w' =
       console later ++ [("Error saving staff after deletion:", error)]) ∧
  (∀ error later i,
     inflight later !! i = Some q →
     let w' := exec (dispatch validateAdminPassword (ESaveRejected i error)) later in
     staff (ui w') = staff (ui w) ∧
     alerts w' = alerts later ++ [deleteAlert]).
Proof.
  rewrite handleDeleteStaff_requests.
  destruct (validateAdminPassword password);
    [| intros H; by apply app_singleton_neq in H].
  destruct (asTruthy _) as [d|] eqn:Hd;
    [| intros H; by apply app_singleton_neq in H].
  intros Hq. apply app_inj_tail in Hq as [_ <-]. simpl.
  apply asTruthy_Some in Hd as [Hd _].
  split_and!.
  - reflexivity.
  - by exists d.
  - intros error later.
    destruct (saveRejected_AfterDelete (staff (ui w)) error later)
      as (? & ? & ? & _).
    by split_and!.
  - intros error later i Hi. rewrite dispatch_unfold.
    assert (exec (handle validateAdminPassword (ESaveRejected i error))
              (exec clearStored later)
            = exec (saveRejected (AfterDelete (staff (ui w))) error)
                (exec (saveSettled i) (exec clearStored later))) as ->.
    { unfold handle. step_comp. by rewrite Hi. }
    cbv zeta.
    destruct (saveRejected_AfterDelete (staff (ui w)) error
                (exec (saveSettled i) (exec clearStored later)))
      as (Hs & Ha & _ & Hst).
    rewrite Hst, saveEffect_ui, saveEffect_alerts. by split.
Qed.

(** ** Which saves the component issues *)

Lemma saveEffect_requests (w : World) :
  requests (exec saveEffect w) =
  if bool_decide (0 < length (staff (ui w)))%nat
  then requests w ++ [ {| saved := staff (ui w); origin := OnChange |} ]
  else requests w.
Proof. unfold saveEffect. step_comp. by case_bool_decide. Qed.

(** A callback itself never issues a save of the change-triggered kind. *)
Lemma handle_requests (e : Event) (w : World) :
  ∃ extra,
    requests (exec (handle validateAdminPassword e) w) = requests w ++ extra ∧
    Forall (fun q => origin q ≠ OnChange) extra.
Proof.
  destruct e;
    unfold handle, handleAddStaff, handleEditStaff, handleAddDiscount,
      handleCancelDiscount, handleDeleteStaff, handleClearHistory,
      handleUpdateSale, loadResolved, loadRejected, loadSettled, saveSettled,
      saveRejected;
    step_comp; repeat case_match; simpl;
    first [ by (exists []; rewrite app_nil_r)
          | eexists [_]; split; [reflexivity | by repeat constructor] ].
Qed.

Lemma clearStored_requests (w : World) :
  requests (exec clearStored w) = requests w.
Proof. reflexivity. Qed.

Lemma dispatch_keeps_invariant (e : Event) (w : World) :
  changeSavesNonEmpty (requests w) →
  changeSavesNonEmpty (requests (exec (dispatch validateAdminPassword e) w)).
Proof.
  intros Hw. rewrite dispatch_unfold. cbv zeta.
  destruct (handle_requests e (exec clearStored w)) as (extra & He & Hx).
  rewrite clearStored_requests in He.
  assert (changeSavesNonEmpty
            (requests (exec (handle validateAdminPassword e)
                         (exec clearStored w)))) as H1.
  { rewrite He. apply Forall_app. split; [done|].
    eapply Forall_impl; [exact Hx|]. intros q Hq Ho. by destruct Hq. }
  destruct (staffStored _); [|done].
  rewrite saveEffect_requests. case_bool_decide as Hlen; [|done].
  apply Forall_app. split; [done|].
  constructor; [|constructor]. simpl. intros _ Hnil.
  rewrite Hnil in Hlen. simpl in Hlen. lia.
Qed.

Lemma reachable_changeSavesNonEmpty (w : World) :
  reachable validateAdminPassword w → changeSavesNonEmpty (requests w).
Proof.
  induction 1 as [|e w Hw IH He].
  - constructor.
  - by apply dispatch_keeps_invariant.
Qed.

Lemma reachable_run (es : list Event) (w : World) :
  reachable validateAdminPassword w →
  allEnabled validateAdminPassword es w = true →
  reachable validateAdminPassword (run validateAdminPassword es w).
Proof.
  revert w. induction es as [|e es IH]; intros w Hw Hen; [done|].
  simpl in Hen. apply andb_prop in Hen as [He Hes].
  simpl. apply IH; [by constructor | done].
Qed.

Lemma pretty_N_go_nonempty (x : N) (s : string) :
  s ≠ "" → pretty_N_go x s ≠ "".
Proof.
  revert s. induction (N.lt_wf_0 x) as [x _ IH]; intros s Hs.
  destruct (decide (x = 0)%N) as [->|Hx]; [by rewrite pretty_N_go_0|].
  rewrite pretty_N_go_step by lia.
  apply IH; [apply N.div_lt; lia | discriminate].
Qed.

Lemma pretty_N_nonempty (x : N) : pretty x ≠ "".
Proof.
  unfold pretty, pretty_N. case_decide as Hx; [discriminate|].
  rewrite pretty_N_go_step by lia. apply pretty_N_go_nonempty. discriminate.
Qed.

(** [Date.now().toString()] is never the empty string. *)
Lemma toString_nonempty (now : Z) : toString now ≠ "".
Proof.
  unfold toString, pretty, pretty_Z.
  destruct now as [|p|p]; [discriminate | | discriminate].
  apply pretty_N_nonempty.
Qed.

Lemma filter_drops_all (d : string) (l : list Staff) :
  (∀ s, s ∈ l → staff_id s = d) → filter (fun s => staff_id s ≠ d) l = [].
Proof.
  induction l as [|x l IH]; intros Hall; [done|].
  rewrite filter_cons_False.
  - apply IH. intros s Hs. apply Hall. by apply elem_of_cons; right.
  - intros Hne. apply Hne, Hall. by apply elem_of_cons; left.
Qed.

(** C9.  In every world the component reaches, each save issued by the
    change-triggered effect carries a non-empty roster, and a save of the
    empty roster comes from the delete handler or the clear-history handler:
    the effect issues nothing when the roster is empty and saves the roster
    otherwise, and the delete handler saves the empty roster when the members
    it removes are all there is. *)
Theorem change_triggered_save_never_empty :
  (∀ w, reachable validateAdminPassword w →
        ∀ q, q ∈ requests w → origin q = OnChange → saved q ≠ []) ∧
  (∀ w, reachable validateAdminPassword w →
        ∀ q, q ∈ requests w → saved q = [] →
             origin q = AfterClear ∨ ∃ previous, origin q = AfterDelete previous) ∧
  (∀ w, staff (ui w) = [] → exec saveEffect w = w) ∧
  (∀ w, staff (ui w) ≠ [] →
        requests (exec saveEffect w) =
        requests w ++ [ {| saved := staff (ui w); origin := OnChange |} ]) ∧
  (∀ w password d,
     validateAdminPassword password = true →
     deletingStaffId (ui w) = Some d → d ≠ "" →
     (∀ s, s ∈ staff (ui w) → staff_id s = d) →
     requests (exec (handleDeleteStaff validateAdminPassword password) w) =
     requests w ++ [ {| saved := []; origin := AfterDelete (staff (ui w)) |} ]).
Proof.
  split_and!.
  - intros w Hw q Hq. apply reachable_changeSavesNonEmpty in Hw.
    unfold changeSavesNonEmpty in Hw. rewrite Forall_forall in Hw.
    by apply Hw.
  - intros w Hw q Hq Hnil. apply reachable_changeSavesNonEmpty in Hw.
    unfold changeSavesNonEmpty in Hw. rewrite Forall_forall in Hw.
    specialize (Hw q Hq).
    destruct (origin q) as [|previous|]; [| right; by exists previous | by left].
    by destruct Hw.
  - intros w Hnil. unfold saveEffect. step_comp. by rewrite Hnil.
  - intros w Hne. rewrite saveEffect_requests.
    rewrite bool_decide_eq_true_2; [done|].
    destruct (staff (ui w)); [done | simpl; lia].
  - intros w password d Hv Hd Hne Hall.
    rewrite handleDeleteStaff_requests, Hv, Hd, asTruthy_set by done.
    by rewrite filter_drops_all.
Qed.

(** ** Loading on mount *)

(** C8 (amended).  When [storage.staff.load()] resolves to something that is
    not an array, the callback stores nothing and logs nothing: the world is
    left as it is, so on mount the roster stays the initial empty roster and
    the console stays empty.  When the load fails, the roster is set to the
    empty roster and the failure is logged. *)
Theorem loadStaff_fallback :
  (∀ v w, exec (loadResolved (LOther v)) w = w) ∧
  (∀ v, let w' := exec (dispatch validateAdminPassword
                          (ELoadResolved (LOther v))) mounted in
        staff (ui w') = [] ∧ console w' = [] ∧ requests w' = []) ∧
  (∀ error w, let w' := exec (loadRejected error) w in
        staff (ui w') = [] ∧
        console w' = console w ++ [("Error loading staff:", error)]) ∧
  (∀ error, let w' := exec (dispatch validateAdminPassword
                              (ELoadRejected error)) mounted in
        staff (ui w') = [] ∧
        console w' = [("Error loading staff:", error)] ∧
        requests w' = []).
Proof.
  split_and!.
  - intros v w. by destruct w.
  - intros v. rewrite dispatch_unfold. by split_and!.
  - intros error w. by split.
  - intros error. rewrite dispatch_unfold. by split_and!.
Qed.

(** ** Ids *)

Lemma toString_inj (now1 now2 : Z) :
  toString now1 = toString now2 → now1 = now2.
Proof. unfold toString. apply pretty_Z_inj. Qed.

Lemma handleAddStaff_ids (now : Z) (staffData : StaffData) (w : World) :
  staff_id <$> staff (ui (exec (handleAddStaff now staffData) w)) =
  (staff_id <$> staff (ui w)) ++ [toString now].
Proof. unfold handleAddStaff. step_comp. by rewrite fmap_app. Qed.

(** C10 (amended).  From a roster with pairwise distinct ids,
    [handleAddStaff] yields a roster with pairwise distinct ids exactly when
    the rendering of the clock value is not already the id of a member. *)
Theorem handleAddStaff_keeps_ids_distinct (now : Z) (staffData : StaffData)
    (w : World) :
  NoDup (staff_id <$> staff (ui w)) →
  (toString now ∉ staff_id <$> staff (ui w) ↔
   NoDup (staff_id <$> staff (ui (exec (handleAddStaff now staffData) w)))).
Proof.
  intros Hnd. rewrite handleAddStaff_ids, NoDup_app. split.
  - intros Hfresh. split_and!; [done | | apply NoDup_singleton].
    intros x Hx Hin. apply list_elem_of_singleton in Hin. by subst.
  - intros (_ & Hdisj & _) Hin. apply (Hdisj _ Hin).
    by apply list_elem_of_singleton.
Qed.

(** The other roster updates keep the list of ids, or shrink it. *)
Lemma replaceById_staff_ids (f : Staff → Staff) (k : string) (l : list Staff) :
  (∀ s, staff_id (f s) = staff_id s) →
  staff_id <$> replaceById staff_id f k l = staff_id <$> l.
Proof. apply replaceById_keys. Qed.

Lemma filter_ids_NoDup (d : string) (l : list Staff) :
  NoDup (staff_id <$> l) →
  NoDup (staff_id <$> filter (fun s => staff_id s ≠ d) l).
Proof.
  induction l as [|x l IH]; [done|].
  rewrite fmap_cons, NoDup_cons. intros [Hx Hl].
  rewrite filter_cons. case_decide; [|by apply IH].
  rewrite fmap_cons, NoDup_cons. split; [|by apply IH].
  intros Hin. apply Hx.
  apply list_elem_of_fmap in Hin as (y & -> & Hy).
  apply list_elem_of_filter in Hy as [_ Hy].
  apply list_elem_of_fmap. by exists y.
Qed.

(** ** Clearing history with an accepted password *)

Lemma handleClearHistory_roster (password : string) (w : World) (M : Staff) :
  validateAdminPassword password = true →
  clearingHistoryStaff (ui w) = Some M →
  staff (ui (exec (handleClearHistory validateAdminPassword password) w)) =
  replaceById staff_id clearedHistory (staff_id M) (staff (ui w)).
Proof.
  intros Hv HM. unfold handleClearHistory. step_comp. by rewrite Hv, HM.
Qed.

(** C5 (amended).  With an accepted password and member [M] pending history
    clearing, every roster entry whose id is [M]'s id gets empty [sales] and
    [discounts] and keeps all its other fields, and every entry with another
    id is unchanged; when the ids of the roster are pairwise distinct and [M]
    is in the roster, every entry other than [M] is unchanged. *)
Theorem handleClearHistory_spec (password : string) (w : World) (M : Staff) :
  validateAdminPassword password = true →
  clearingHistoryStaff (ui w) = Some M →
  let roster := staff (ui w) in
  let roster' :=
    staff (ui (exec (handleClearHistory validateAdminPassword password) w)) in
  length roster' = length roster ∧
  (∀ i s, roster !! i = Some s →
     (staff_id s = staff_id M →
        ∃ s', roster' !! i = Some s' ∧ sales s' = [] ∧ discounts s' = [] ∧
              staff_id s' = staff_id s ∧ name s' = name s ∧
              code s' = code s ∧ profile s' = profile s) ∧
     (staff_id s ≠ staff_id M → roster' !! i = Some s)) ∧
  (NoDup (staff_id <$> roster) → M ∈ roster →
     ∀ i s, roster !! i = Some s → s ≠ M → roster' !! i = Some s).
Proof.
  intros Hv HM roster roster'. subst roster'.
  rewrite (handleClearHistory_roster _ _ M) by done. fold roster.
  split_and!.
  - apply replaceById_length.
  - intros i s Hi. split.
    + intros Hid. exists (clearedHistory s).
      by rewrite (replaceById_match _ _ _ _ _ _ Hi Hid).
    + intros Hid. by apply replaceById_other.
  - intros Hnd HMin i s Hi Hne. apply replaceById_other; [done|].
    intros Hid. apply Hne.
    eapply (NoDup_keys_same staff_id); eauto.
    apply list_elem_of_lookup. by exists i.
Qed.

(** ** Cancelling a discount *)

Lemma handleCancelDiscount_roster (R D : string) (w : World) (M : Staff) :
  cancellingDiscountId (ui w) = Some D → D ≠ "" →
  selectedStaff (ui w) = Some M →
  staff (ui (exec (handleCancelDiscount R) w)) =
  replaceById staff_id
    (fun s => withDiscounts s
                (replaceById discount_id (fun d => cancelDiscount d R) D
                   (discounts s)))
    (staff_id M) (staff (ui w)).
Proof.
  intros HD Hne HM. unfold handleCancelDiscount. step_comp.
  by rewrite HD, asTruthy_set, HM.
Qed.

(** The guard [if (cancellingDiscountId && selectedStaff)] skips the empty
    string as it skips [undefined]. *)
Lemma handleCancelDiscount_falsy (R : string) (w : World) :
  asTruthy (cancellingDiscountId (ui w)) = None →
  exec (handleCancelDiscount R) w = w.
Proof. intros HD. unfold handleCancelDiscount. step_comp. by rewrite HD. Qed.

(** C3 (amended).  With selected member [M] and a non-empty discount id [D]
    pending cancellation, [handleCancelDiscount R] maps, in every roster entry
    whose id is [M]'s id, each discount whose id is [D] to the same discount
    with status cancelled and cancellation reason [R], its id, amount, reason
    and date unchanged; the other discounts of those entries, their other
    fields, and every entry with another id are unchanged.  When the ids of
    the roster are pairwise distinct and [M] is in the roster, every entry
    other than [M] is unchanged. *)
Theorem handleCancelDiscount_spec (R D : string) (w : World) (M : Staff) :
  cancellingDiscountId (ui w) = Some D → D ≠ "" →
  selectedStaff (ui w) = Some M →
  let roster := staff (ui w) in
  let roster' := staff (ui (exec (handleCancelDiscount R) w)) in
  length roster' = length roster ∧
  (∀ i s, roster !! i = Some s →
     (staff_id s ≠ staff_id M → roster' !! i = Some s) ∧
     (staff_id s = staff_id M →
        ∃ s', roster' !! i = Some s' ∧
              staff_id s' = staff_id s ∧ name s' = name s ∧
              code s' = code s ∧ profile s' = profile s ∧
              sales s' = sales s ∧
              length (discounts s') = length (discounts s) ∧
              ∀ j d, discounts s !! j = Some d →
                (discount_id d ≠ D → discounts s' !! j = Some d) ∧
                (discount_id d = D →
                   ∃ d', discounts s' !! j = Some d' ∧
                         status d' = cancelled ∧
                         cancellationReason d' = Some R ∧
                         amount d' = amount d ∧ reason d' = reason d ∧
                         date d' = date d ∧
                         discount_id d' = discount_id d))) ∧
  (NoDup (staff_id <$> roster) → M ∈ roster →
     ∀ i s, roster !! i = Some s → s ≠ M → roster' !! i = Some s).
Proof.
  intros HD Hne HM roster roster'. subst roster'.
  rewrite (handleCancelDiscount_roster _ D _ M) by done. fold roster.
  split_and!.
  - apply replaceById_length.
  - intros i s Hi. split.
    + intros Hid. by apply replaceById_other.
    + intros Hid. eexists.
      rewrite (replaceById_match _ _ _ _ _ _ Hi Hid).
      split_and!; try reflexivity; cbn -[replaceById].
      * apply replaceById_length.
      * intros j d Hj. split.
        -- intros Hd. by apply replaceById_other.
        -- intros Hd. exists (cancelDiscount d R).
           by rewrite (replaceById_match _ _ _ _ _ _ Hj Hd).
  - intros Hnd HMin i s Hi Hneq. apply replaceById_other; [done|].
    intros Hid. apply Hneq.
    eapply (NoDup_keys_same staff_id); eauto.
    apply list_elem_of_lookup. by exists i.
Qed.

(** ** Editing a member *)

Lemma handleEditStaff_roster (staffData : StaffData) (w : World) (M : Staff) :
  editingStaff (ui w) = Some M →
  staff (ui (exec (handleEditStaff staffData) w)) =
  replaceById staff_id (fun s => spreadData s staffData) (staff_id M)
    (staff (ui w)).
Proof. intros HM. unfold handleEditStaff. step_comp. by rewrite HM. Qed.

(** What [{ ...s, ...staffData }] keeps and what it takes from the form. *)
Lemma spreadData_fields (s : Staff) (staffData : StaffData) :
  let s' := spreadData s staffData in
  staff_id s' = staff_id s ∧ sales s' = sales s ∧
  discounts s' = discounts s ∧
  name s' = data_name staffData ∧ code s' = data_code staffData ∧
  (∀ k, profile s' !! k =
        match data_profile staffData !! k with
        | Some v => Some v
        | None => profile s !! k
        end).
Proof.
  simpl. split_and!; try reflexivity.
  intros k. destruct (data_profile staffData !! k) as [v|] eqn:Hk.
  - by apply lookup_union_Some_l.
  - by rewrite lookup_union_r.
Qed.

(** *** The store never loses or changes an object *)

Lemma denotes_prefix (store store' : list Staff) (roster : list Ref)
    (l : list Staff) :
  store `prefix_of` store' → denotes store roster l → denotes store' roster l.
Proof.
  intros Hp Hden. unfold denotes in *. eapply Forall2_impl; [exact Hden|].
  intros r s Hr. simpl in *. eapply prefix_lookup_Some; [exact Hr | exact Hp].
Qed.

Lemma mapRefs_spec (callback : Staff → option Staff) (roster : list Ref) :
  ∀ (store : list Staff) (l : list Staff),
    denotes store roster l →
    store `prefix_of` (mapRefs callback store roster).1 ∧
    denotes (mapRefs callback store roster).1
            (mapRefs callback store roster).2
            ((fun s => default s (callback s)) <$> l) ∧
    (∀ i r s, roster !! i = Some r → store !! r = Some s →
       match callback s with
       | None => (mapRefs callback store roster).2 !! i = Some r
       | Some fresh =>
           ∃ r', (mapRefs callback store roster).2 !! i = Some r' ∧
                 (length store ≤ r')%nat ∧
                 (mapRefs callback store roster).1 !! r' = Some fresh
       end).
Proof.
  induction roster as [|r rest IH]; intros store l Hden.
  - apply Forall2_nil_inv_l in Hden as ->. simpl.
    split_and!; [done | constructor | intros i r s Hi; by destruct i].
  - apply Forall2_cons_inv_l in Hden as (s & l' & Hr & Hrest & ->).
    simpl. rewrite Hr. simpl.
    destruct (callback s) as [fresh|] eqn:Hcb.
    + assert (store `prefix_of` store ++ [fresh]) as Hp
        by (by apply prefix_app_r).
      destruct (IH (store ++ [fresh]) l' (denotes_prefix _ _ _ _ Hp Hrest))
        as (Hpre & Hden' & Hidx).
      destruct (mapRefs callback (store ++ [fresh]) rest)
        as [store' out] eqn:Hm.
      simpl in *.
      assert (store' !! length store = Some fresh) as Hfresh.
      { eapply prefix_lookup_Some; [|exact Hpre].
        by rewrite lookup_app_r, Nat.sub_diag by lia. }
      split_and!.
      * by etrans.
      * constructor; [done | exact Hden'].
      * intros [|i] r0 s0 Hi Hs0; simpl in Hi.
        -- injection Hi as <-. rewrite Hr in Hs0. injection Hs0 as <-.
           rewrite Hcb. exists (length store). by split_and!.
        -- specialize (Hidx i r0 s0 Hi (lookup_app_l_Some _ _ _ _ Hs0)).
           destruct (callback s0) as [fresh0|]; [|done].
           destruct Hidx as (r' & ? & Hle & ?). exists r'.
           split_and!; [done | | done].
           rewrite length_app in Hle. simpl in Hle. lia.
    + destruct (IH store l' Hrest) as (Hpre & Hden' & Hidx).
      destruct (mapRefs callback store rest) as [store' out] eqn:Hm.
      simpl in *.
      split_and!.
      * done.
      * constructor; [by eapply prefix_lookup_Some | exact Hden'].
      * intros [|i] r0 s0 Hi Hs0; simpl in Hi.
        -- injection Hi as <-. rewrite Hr in Hs0. injection Hs0 as <-.
           by rewrite Hcb.
        -- exact (Hidx i r0 s0 Hi Hs0).
Qed.

Lemma editCallback_default (editing : Staff) (staffData : StaffData)
    (l : list Staff) :
  (fun s => default s (editCallback editing staffData s)) <$> l =
  replaceById staff_id (fun s => spreadData s staffData) (staff_id editing) l.
Proof.
  unfold replaceById, editCallback. apply list_fmap_ext.
  intros _ s _. by case_bool_decide.
Qed.

(** C4 (amended).  With member [M] being edited, every roster entry whose id
    is [M]'s id is replaced by a fresh object that keeps the entry's [id],
    [sales] and [discounts] and every property the form did not submit, and
    takes the submitted ones; every entry with another id stays the very same
    object, at the same address and with the same contents, and no object of
    the old store is changed.  When the ids of the roster are pairwise
    distinct and [M] is in the roster, every entry other than [M] is
    unchanged. *)
Theorem handleEditStaff_spec (staffData : StaffData) (w : World) (M : Staff)
    (store : list Staff) (refs : list Ref) :
  editingStaff (ui w) = Some M →
  denotes store refs (staff (ui w)) →
  let roster := staff (ui w) in
  let roster' := staff (ui (exec (handleEditStaff staffData) w)) in
  let store' := (mapRefs (editCallback M staffData) store refs).1 in
  let refs' := (mapRefs (editCallback M staffData) store refs).2 in
  denotes store' refs' roster' ∧
  store `prefix_of` store' ∧
  (∀ i r s, refs !! i = Some r → store !! r = Some s →
     (staff_id s ≠ staff_id M →
        refs' !! i = Some r ∧ store' !! r = Some s ∧ roster' !! i = Some s) ∧
     (staff_id s = staff_id M →
        ∃ r' s', refs' !! i = Some r' ∧ (length store ≤ r')%nat ∧
                 store' !! r' = Some s' ∧ roster' !! i = Some s' ∧
                 staff_id s' = staff_id s ∧ sales s' = sales s ∧
                 discounts s' = discounts s ∧
                 name s' = data_name staffData ∧
                 code s' = data_code staffData ∧
                 ∀ k, profile s' !! k =
                      match data_profile staffData !! k with
                      | Some v => Some v
                      | None => profile s !! k
                      end)) ∧
  (NoDup (staff_id <$> roster) → M ∈ roster →
     ∀ i s, roster !! i = Some s → s ≠ M → roster' !! i = Some s).
Proof.
  intros HM Hden roster roster' store' refs'. subst roster'.
  rewrite (handleEditStaff_roster _ _ M) by done. fold roster.
  destruct (mapRefs_spec (editCallback M staffData) refs store roster Hden)
    as (Hpre & Hden' & Hidx).
  fold store' refs' in Hpre, Hden', Hidx.
  rewrite editCallback_default in Hden'.
  split_and!; [done | done | |].
  - intros i r s Hi Hs.
    assert (roster !! i = Some s) as Hri.
    { destruct (Forall2_lookup_l _ _ _ _ _ Hden Hi) as (s0 & Hs0 & Hrs0).
      simpl in Hrs0. unfold roster. congruence. }
    specialize (Hidx i r s Hi Hs). unfold editCallback in Hidx. split.
    + intros Hid. rewrite bool_decide_eq_false_2 in Hidx by done.
      split_and!; [done | by eapply prefix_lookup_Some |].
      by apply replaceById_other.
    + intros Hid. rewrite bool_decide_eq_true_2 in Hidx by done.
      destruct Hidx as (r' & Hr' & Hle & Hst).
      exists r', (spreadData s staffData).
      destruct (spreadData_fields s staffData) as (?&?&?&?&?&?).
      split_and!; try done.
      by rewrite (replaceById_match _ _ _ _ _ _ Hri Hid).
  - intros Hnd HMin i s Hi Hneq. apply replaceById_other; [done|].
    intros Hid. apply Hneq.
    eapply (NoDup_keys_same staff_id); eauto.
    apply list_elem_of_lookup. by exists i.
Qed.

End Properties.

(** * The component run on concrete inputs *)

Ltac reach :=
  apply reachable_run; [apply reach_mount | vm_compute; reflexivity].

(** ** Deletion *)

(** C1, as stated, fails: two members were created at the same clock value
    and so share their id; deleting by that id with the accepted password
    removes both, and no roster obtained by removing one member from the old
    one is the result. *)
Lemma handleDeleteStaff_removes_both :
  let w := run sampleCheck (twoAtOneTick ++ [EOnDelete (toString tick)])
             mounted in
  let w' := exec (handleDeleteStaff sampleCheck "admin") w in
  reachable sampleCheck w ∧
  sampleCheck "admin" = true ∧
  deletingStaffId (ui w) = Some (staff_id anaMember) ∧
  staff (ui w) = [anaMember; luisMember] ∧
  staff (ui w') = [] ∧
  ¬ (∃ l1 m l2, staff (ui w) = l1 ++ m :: l2 ∧ staff (ui w') = l1 ++ l2).
Proof.
  intros w w'.
  assert (staff (ui w) = [anaMember; luisMember]) as Hw
    by (vm_compute; reflexivity).
  assert (staff (ui w') = []) as Hw' by (vm_compute; reflexivity).
  split_and!; [reach | reflexivity | vm_compute; reflexivity | done | done |].
  rewrite Hw, Hw'. intros (l1 & m & l2 & H1 & H2).
  symmetry in H2. apply app_eq_nil in H2 as [-> ->]. discriminate H1.
Qed.

(** An empty-string id is falsy: the handler leaves the member in place. *)
Lemma handleDeleteStaff_skips_empty_id :
  let nobody := newStaffOf ana "" in
  let w := exec (dispatch sampleCheck (EOnDelete ""))
             (exec (dispatch sampleCheck (ELoadResolved (LArray [nobody])))
                mounted) in
  deletingStaffId (ui w) = Some "" ∧ staff (ui w) = [nobody] ∧
  exec (handleDeleteStaff sampleCheck "admin") w = w.
Proof. by vm_compute. Qed.

(** The deletion theorem at work: a rejected and an accepted password on a
    roster of two members with distinct ids. *)
Lemma handleDeleteStaff_spec_witness :
  let w := run sampleCheck (twoAtTwoTicks ++ [EOnDelete (toString tick)])
             mounted in
  (sampleCheck "guess" = false ∧
   staff (ui (exec (handleDeleteStaff sampleCheck "guess") w)) = staff (ui w) ∧
   deleteError (ui (exec (handleDeleteStaff sampleCheck "guess") w)) ≠ "") ∧
  (sampleCheck "admin" = true ∧
   deletingStaffId (ui w) = Some (toString tick) ∧ toString tick ≠ "" ∧
   staff (ui w) = [] ++ anaMember :: [luisLater] ∧
   NoDup (staff_id <$> staff (ui w)) ∧
   staff (ui (exec (handleDeleteStaff sampleCheck "admin") w)) =
     [] ++ [luisLater]).
Proof.
  intros w.
  assert (sampleCheck "guess" = false) as Hg by reflexivity.
  assert (sampleCheck "admin" = true) as Ha by reflexivity.
  assert (deletingStaffId (ui w) = Some (toString tick)) as Hd
    by (vm_compute; reflexivity).
  assert (toString tick ≠ "") as Hne by discriminate.
  assert (staff (ui w) = [] ++ anaMember :: [luisLater]) as Hw
    by (vm_compute; reflexivity).
  assert (NoDup (staff_id <$> staff (ui w))) as Hnd.
  { rewrite Hw. apply (bool_decide_unpack _). vm_compute. exact I. }
  split.
  - destruct (proj1 (handleDeleteStaff_spec sampleCheck "guess" w) Hg)
      as (H1 & _ & H3).
    exact (conj Hg (conj H1 H3)).
  - destruct (proj2 (handleDeleteStaff_spec sampleCheck "admin" w)
                (toString tick) Ha Hd Hne) as (_ & _ & H3).
    exact (conj Ha (conj Hd (conj Hne (conj Hw (conj Hnd
             (H3 Hnd [] anaMember [luisLater] Hw eq_refl)))))).
Defined.

(** ** Rollback *)

(** The delete is confirmed, its save is rejected, and the roster is the
    two-member roster again. *)
Lemma handleDeleteStaff_rollback_witness :
  let w := run sampleCheck (twoAtTwoTicks ++ [EOnDelete (toString tick)])
             mounted in
  let q := {| saved := [luisLater]; origin := AfterDelete (staff (ui w)) |} in
  let w1 := exec (dispatch sampleCheck (EDeleteConfirm "admin")) w in
  let w2 := exec (dispatch sampleCheck (ESaveRejected 2 (VStr "quota"))) w1 in
  requests (exec (handleDeleteStaff sampleCheck "admin") w) =
    requests w ++ [q] ∧
  inflight w1 !! 2%nat = Some q ∧
  staff (ui w1) = [luisLater] ∧
  staff (ui w2) = staff (ui w) ∧
  alerts w2 = alerts w1 ++ [deleteAlert].
Proof.
  intros w q w1 w2.
  assert (requests (exec (handleDeleteStaff sampleCheck "admin") w) =
          requests w ++ [q]) as Hq by (vm_compute; reflexivity).
  assert (inflight w1 !! 2%nat = Some q) as Hi by (vm_compute; reflexivity).
  destruct (handleDeleteStaff_rollback sampleCheck "admin" w q Hq)
    as (_ & _ & _ & H4).
  destruct (H4 (VStr "quota") w1 2%nat Hi) as [Hs Hal].
  assert (staff (ui w1) = [luisLater]) as H1 by (vm_compute; reflexivity).
  exact (conj Hq (conj Hi (conj H1 (conj Hs Hal)))).
Defined.

(** ** Cancelling a discount *)

(** C3, as stated, fails: the two members share their id, both carry the
    discount, and cancelling it from the history of the first one also
    rewrites the second one, which is another member. *)
Lemma handleCancelDiscount_changes_other_member :
  let w := run sampleCheck
             (twoWithDiscount ++
              [ EOnViewHistory anaWithPromo;
                EHistoryCancelDiscount (discount_id promo) ]) mounted in
  let w' := exec (handleCancelDiscount "error") w in
  reachable sampleCheck w ∧
  selectedStaff (ui w) = Some anaWithPromo ∧
  cancellingDiscountId (ui w) = Some (discount_id promo) ∧
  anaWithPromo ∈ staff (ui w) ∧
  staff (ui w) !! 1%nat = Some luisWithPromo ∧
  luisWithPromo ≠ anaWithPromo ∧
  staff (ui w') !! 1%nat =
    Some (withDiscounts luisMember [cancelDiscount promo "error"]) ∧
  staff (ui w') !! 1%nat ≠ Some luisWithPromo.
Proof.
  intros w w'.
  assert (staff (ui w) = [anaWithPromo; luisWithPromo]) as Hw
    by (vm_compute; reflexivity).
  assert (staff (ui w') !! 1%nat =
          Some (withDiscounts luisMember [cancelDiscount promo "error"]))
    as Hw' by (vm_compute; reflexivity).
  split_and!.
  - reach.
  - vm_compute; reflexivity.
  - vm_compute; reflexivity.
  - rewrite Hw. apply elem_of_cons. by left.
  - by rewrite Hw.
  - discriminate.
  - exact Hw'.
  - rewrite Hw'. discriminate.
Qed.

(** An empty-string discount id is falsy: nothing is cancelled. *)
Lemma handleCancelDiscount_skips_empty_id :
  let blank :=
    {| discount_id := ""; date := "2023-11-14T22:13:20.001Z"; amount := 50;
       reason := "promo"; status := active; cancellationReason := None |} in
  let member := withDiscounts anaMember [blank] in
  let w := run sampleCheck
             [ ELoadResolved (LArray [member]); EOnViewHistory member;
               EHistoryCancelDiscount "" ] mounted in
  selectedStaff (ui w) = Some member ∧
  cancellingDiscountId (ui w) = Some "" ∧
  exec (handleCancelDiscount "error") w = w.
Proof. by vm_compute. Qed.

(** The scenario of the spec: a discount of 50 for "promo" is added, then
    cancelled with reason "error"; the other member is untouched. *)
Lemma handleCancelDiscount_spec_witness :
  let w := run sampleCheck
             (twoAtTwoTicks ++
              [ EOnAddDiscount anaMember;
                EDiscountConfirm (tick + 1) (date promo) 50 "promo";
                EOnViewHistory anaWithPromo;
                EHistoryCancelDiscount (discount_id promo) ]) mounted in
  let w' := exec (handleCancelDiscount "error") w in
  staff (ui w) = [anaWithPromo; luisLater] ∧
  staff (ui w') !! 1%nat = Some luisLater ∧
  ∃ s' d',
    staff (ui w') !! 0%nat = Some s' ∧ discounts s' !! 0%nat = Some d' ∧
    status d' = cancelled ∧ cancellationReason d' = Some "error" ∧
    amount d' = 50 ∧ reason d' = "promo" ∧ date d' = date promo.
Proof.
  intros w w'.
  assert (cancellingDiscountId (ui w) = Some (discount_id promo)) as HD
    by (vm_compute; reflexivity).
  assert (discount_id promo ≠ "") as Hne by discriminate.
  assert (selectedStaff (ui w) = Some anaWithPromo) as HM
    by (vm_compute; reflexivity).
  assert (staff (ui w) = [anaWithPromo; luisLater]) as Hw
    by (vm_compute; reflexivity).
  destruct (handleCancelDiscount_spec "error" (discount_id promo) w
              anaWithPromo HD Hne HM) as (_ & Hidx & _).
  assert (staff (ui w) !! 0%nat = Some anaWithPromo) as H0 by (by rewrite Hw).
  assert (staff (ui w) !! 1%nat = Some luisLater) as H1 by (by rewrite Hw).
  assert (staff_id luisLater ≠ staff_id anaWithPromo) as Hother
    by discriminate.
  destruct (proj2 (Hidx 0%nat anaWithPromo H0) eq_refl)
    as (s' & Hs' & _ & _ & _ & _ & _ & _ & Hds).
  destruct (proj2 (Hds 0%nat promo eq_refl) eq_refl)
    as (d' & Hd' & Hst & Hcr & Ham & Hre & Hda & _).
  refine (conj Hw (conj (proj1 (Hidx 1%nat luisLater H1) Hother) _)).
  exists s', d'.
  exact (conj Hs' (conj Hd' (conj Hst (conj Hcr (conj Ham (conj Hre Hda)))))).
Defined.

(** ** Editing *)

(** C4, as stated, fails: the two members share their id, and editing the
    first one also replaces the second one by an object carrying the
    submitted name and code. *)
Lemma handleEditStaff_changes_other_member :
  let w := run sampleCheck (twoAtOneTick ++ [EOnEdit anaMember]) mounted in
  let w' := exec (handleEditStaff renamed) w in
  reachable sampleCheck w ∧
  enabled (EFormSubmit tick renamed) w = true ∧
  editingStaff (ui w) = Some anaMember ∧
  staff (ui w) !! 1%nat = Some luisMember ∧
  luisMember ≠ anaMember ∧
  staff (ui w') !! 1%nat = Some (spreadData luisMember renamed) ∧
  name (spreadData luisMember renamed) = "Ana Maria" ∧
  staff (ui w') !! 1%nat ≠ Some luisMember.
Proof.
  intros w w'.
  assert (staff (ui w') !! 1%nat = Some (spreadData luisMember renamed))
    as Hw' by (vm_compute; reflexivity).
  split_and!.
  - reach.
  - vm_compute; reflexivity.
  - vm_compute; reflexivity.
  - vm_compute; reflexivity.
  - discriminate.
  - exact Hw'.
  - reflexivity.
  - rewrite Hw'. discriminate.
Qed.

(** With distinct ids, the edited member moves to a fresh address and the
    other one keeps its address and contents. *)
Lemma handleEditStaff_spec_witness :
  let w := run sampleCheck (twoAtTwoTicks ++ [EOnEdit anaMember]) mounted in
  let w' := exec (handleEditStaff renamed) w in
  let store := [anaMember; luisLater] in
  let refs := [0%nat; 1%nat] in
  let store' := (mapRefs (editCallback anaMember renamed) store refs).1 in
  let refs' := (mapRefs (editCallback anaMember renamed) store refs).2 in
  editingStaff (ui w) = Some anaMember ∧
  denotes store refs (staff (ui w)) ∧
  (refs' !! 1%nat = Some 1%nat ∧ store' !! 1%nat = Some luisLater ∧
   staff (ui w') !! 1%nat = Some luisLater) ∧
  ∃ r' s', refs' !! 0%nat = Some r' ∧ (2 ≤ r')%nat ∧
           store' !! r' = Some s' ∧ staff (ui w') !! 0%nat = Some s' ∧
           staff_id s' = staff_id anaMember ∧ name s' = "Ana Maria".
Proof.
  intros w w' store refs store' refs'.
  assert (editingStaff (ui w) = Some anaMember) as HM
    by (vm_compute; reflexivity).
  assert (staff (ui w) = [anaMember; luisLater]) as Hw
    by (vm_compute; reflexivity).
  assert (denotes store refs (staff (ui w))) as Hden.
  { rewrite Hw. by repeat constructor. }
  destruct (handleEditStaff_spec renamed w anaMember store refs HM Hden)
    as (_ & _ & Hidx & _).
  assert (staff_id luisLater ≠ staff_id anaMember) as Hother by discriminate.
  destruct (proj2 (Hidx 0%nat 0%nat anaMember eq_refl eq_refl) eq_refl)
    as (r' & s' & Hr' & Hle & Hs' & Hrs' & Hid & _ & _ & Hname & _).
  refine (conj HM (conj Hden (conj
            (proj1 (Hidx 1%nat 1%nat luisLater eq_refl eq_refl) Hother) _))).
  exists r', s'.
  exact (conj Hr' (conj Hle (conj Hs' (conj Hrs' (conj Hid Hname))))).
Defined.

(** ** Clearing history *)

(** C5, as stated, fails: the two members share their id, and clearing the
    history of the first one also empties the discounts of the second one. *)
Lemma handleClearHistory_changes_other_member :
  let w := run sampleCheck (twoWithDiscount ++ [EOnClearHistory anaWithPromo])
             mounted in
  let w' := exec (handleClearHistory sampleCheck "admin") w in
  reachable sampleCheck w ∧
  sampleCheck "admin" = true ∧
  clearingHistoryStaff (ui w) = Some anaWithPromo ∧
  staff (ui w) !! 1%nat = Some luisWithPromo ∧
  luisWithPromo ≠ anaWithPromo ∧
  staff (ui w') !! 1%nat = Some luisMember ∧
  discounts luisWithPromo = [promo] ∧ discounts luisMember = [] ∧
  staff (ui w') !! 1%nat ≠ Some luisWithPromo.
Proof.
  intros w w'.
  assert (staff (ui w') !! 1%nat = Some luisMember) as Hw'
    by (vm_compute; reflexivity).
  split_and!.
  - reach.
  - reflexivity.
  - vm_compute; reflexivity.
  - vm_compute; reflexivity.
  - discriminate.
  - exact Hw'.
  - reflexivity.
  - reflexivity.
  - rewrite Hw'. discriminate.
Qed.

(** With distinct ids, only the selected member loses its history. *)
Lemma handleClearHistory_spec_witness :
  let w := run sampleCheck
             (twoAtTwoTicks ++
              [ EOnAddDiscount anaMember;
                EDiscountConfirm (tick + 1) (date promo) 50 "promo";
                EOnClearHistory anaWithPromo ]) mounted in
  let w' := exec (handleClearHistory sampleCheck "admin") w in
  sampleCheck "admin" = true ∧
  clearingHistoryStaff (ui w) = Some anaWithPromo ∧
  staff (ui w) = [anaWithPromo; luisLater] ∧
  staff (ui w') !! 1%nat = Some luisLater ∧
  ∃ s', staff (ui w') !! 0%nat = Some s' ∧ sales s' = [] ∧
        discounts s' = [] ∧ name s' = "Ana".
Proof.
  intros w w'.
  assert (sampleCheck "admin" = true) as Hv by reflexivity.
  assert (clearingHistoryStaff (ui w) = Some anaWithPromo) as HM
    by (vm_compute; reflexivity).
  assert (staff (ui w) = [anaWithPromo; luisLater]) as Hw
    by (vm_compute; reflexivity).
  destruct (handleClearHistory_spec sampleCheck "admin" w anaWithPromo Hv HM)
    as (_ & Hidx & _).
  assert (staff (ui w) !! 0%nat = Some anaWithPromo) as H0 by (by rewrite Hw).
  assert (staff (ui w) !! 1%nat = Some luisLater) as H1 by (by rewrite Hw).
  assert (staff_id luisLater ≠ staff_id anaWithPromo) as Hother
    by discriminate.
  destruct (proj1 (Hidx 0%nat anaWithPromo H0) eq_refl)
    as (s' & Hs' & Hsa & Hdi & _ & Hname & _).
  refine (conj Hv (conj HM (conj Hw
            (conj (proj2 (Hidx 1%nat luisLater H1) Hother) _)))).
  exists s'. exact (conj Hs' (conj Hsa (conj Hdi Hname))).
Defined.

(** A wrong password on the clear-history modal changes nothing at all. *)
Lemma handleClearHistory_rejected_silently_witness :
  let w := run sampleCheck (twoAtTwoTicks ++ [EOnClearHistory anaMember])
             mounted in
  let w' := exec (handleClearHistory sampleCheck "guess") w in
  sampleCheck "guess" = false ∧
  w' = w ∧
  staff (ui w') = [anaMember; luisLater] ∧
  clearingHistoryStaff (ui w') = Some anaMember ∧
  deleteError (ui w') = "" ∧
  deleteError (ui (exec (handleDeleteStaff sampleCheck "guess") w)) ≠ "".
Proof.
  intros w w'.
  assert (sampleCheck "guess" = false) as Hv by reflexivity.
  destruct (handleClearHistory_rejected_silently sampleCheck "guess" w Hv)
    as (Heq & Hs & Hc & He & _ & _ & _ & Hdel).
  assert (staff (ui w) = [anaMember; luisLater]) as Hw
    by (vm_compute; reflexivity).
  assert (clearingHistoryStaff (ui w) = Some anaMember) as Hcw
    by (vm_compute; reflexivity).
  assert (deleteError (ui w) = "") as Hew by (vm_compute; reflexivity).
  exact (conj Hv (conj Heq (conj (eq_trans Hs Hw) (conj (eq_trans Hc Hcw)
           (conj (eq_trans He Hew) Hdel))))).
Defined.

(** ** Loading *)

(** C8, as stated, fails: when the load resolves to [null] on mount, the
    roster is empty but nothing is logged. *)
Lemma loadStaff_null_not_logged :
  let w' := exec (dispatch sampleCheck (ELoadResolved (LOther VNull)))
              mounted in
  enabled (ELoadResolved (LOther VNull)) mounted = true ∧
  staff (ui w') = [] ∧ console w' = console mounted ∧ console w' = [] ∧
  ¬ (staff (ui w') = [] ∧ console w' ≠ console mounted).
Proof.
  intros w'. split_and!; try reflexivity.
  intros [_ Hlog]. by apply Hlog.
Qed.

(** ** Saves *)

(** One member is added and deleted again: the change effect saved the
    one-member roster, the delete handler saved the empty one, and the change
    effect stays silent on the empty roster. *)
Lemma change_triggered_save_never_empty_witness :
  let w := run sampleCheck (addThenDelete tick ana "admin") mounted in
  reachable sampleCheck w ∧
  requests w =
    [ {| saved := [anaMember]; origin := OnChange |};
      {| saved := []; origin := AfterDelete [anaMember] |} ] ∧
  staff (ui w) = [] ∧
  saved {| saved := [anaMember]; origin := OnChange |} ≠ [] ∧
  exec saveEffect w = w.
Proof.
  intros w.
  assert (reachable sampleCheck w) as Hr by (unfold w; reach).
  assert (requests w =
          [ {| saved := [anaMember]; origin := OnChange |};
            {| saved := []; origin := AfterDelete [anaMember] |} ]) as Hq
    by (vm_compute; reflexivity).
  assert (staff (ui w) = []) as Hs by (vm_compute; reflexivity).
  destruct (change_triggered_save_never_empty sampleCheck)
    as (Hinv & _ & Hnil & _ & _).
  assert ({| saved := [anaMember]; origin := OnChange |} ∈ requests w) as Hin.
  { rewrite Hq. apply elem_of_cons. by left. }
  exact (conj Hr (conj Hq (conj Hs
           (conj (Hinv w Hr _ Hin eq_refl) (Hnil w Hs))))).
Defined.

(** ** Ids *)

(** C10, as stated, fails: a second member added at the clock value of the
    first one receives the same id. *)
Lemma handleAddStaff_duplicates_id :
  let w := run sampleCheck [ENewClicked; EFormSubmit tick ana; ENewClicked]
             mounted in
  let w' := exec (handleAddStaff tick luis) w in
  reachable sampleCheck w ∧
  enabled (EFormSubmit tick luis) w = true ∧
  staff_id <$> staff (ui w) = ["1700000000000"] ∧
  NoDup (staff_id <$> staff (ui w)) ∧
  staff_id <$> staff (ui w') = ["1700000000000"; "1700000000000"] ∧
  ¬ NoDup (staff_id <$> staff (ui w')).
Proof.
  intros w w'.
  assert (staff_id <$> staff (ui w) = ["1700000000000"]) as Hw
    by (vm_compute; reflexivity).
  assert (staff_id <$> staff (ui w') = ["1700000000000"; "1700000000000"])
    as Hw' by (vm_compute; reflexivity).
  split_and!; [reach | vm_compute; reflexivity | done | | done |].
  - rewrite Hw. apply NoDup_singleton.
  - rewrite Hw'. intros Hnd. apply NoDup_cons in Hnd as [Hnot _].
    apply Hnot, elem_of_cons. by left.
Qed.

(** A second member added five milliseconds later gets a fresh id. *)
Lemma handleAddStaff_keeps_ids_distinct_witness :
  let w := run sampleCheck [ENewClicked; EFormSubmit tick ana; ENewClicked]
             mounted in
  NoDup (staff_id <$> staff (ui w)) ∧
  (toString (tick + 5) ∉ staff_id <$> staff (ui w)) ∧
  NoDup (staff_id <$> staff (ui (exec (handleAddStaff (tick + 5) luis) w))).
Proof.
  intros w.
  assert (staff_id <$> staff (ui w) = ["1700000000000"]) as Hw
    by (vm_compute; reflexivity).
  assert (NoDup (staff_id <$> staff (ui w))) as Hnd
    by (rewrite Hw; apply NoDup_singleton).
  assert (toString (tick + 5) ∉ staff_id <$> staff (ui w)) as Hfresh.
  { rewrite Hw. intros Hin. apply list_elem_of_singleton in Hin.
    discriminate Hin. }
  exact (conj Hnd (conj Hfresh
           (proj1 (handleAddStaff_keeps_ids_distinct (tick + 5) luis w Hnd)
              Hfresh))).
Defined.

(** * The remaining handlers and the event loop *)

Section Composition.

Context {A : Type} (key : A → string).

(** Two by-id updates on the same key fuse into one. *)
Lemma replaceById_compose (f g : A → A) (k : string) (l : list A) :
  (∀ x, key (f x) = key x) →
  replaceById key g k (replaceById key f k l) =
  replaceById key (fun x => g (f x)) k l.
Proof.
  intros Hf. unfold replaceById. rewrite <- list_fmap_compose.
  apply list_fmap_ext. intros _ x _. simpl.
  destruct (decide (key x = k)) as [Hx|Hx].
  - rewrite (bool_decide_eq_true_2 _ Hx).
    by rewrite bool_decide_eq_true_2 by (by rewrite Hf).
  - rewrite (bool_decide_eq_false_2 _ Hx).
    by rewrite bool_decide_eq_false_2.
Qed.

Lemma replaceById_ext (f g : A → A) (k : string) (l : list A) :
  (∀ x, key x = k → f x = g x) →
  replaceById key f k l = replaceById key g k l.
Proof.
  intros Hfg. unfold replaceById. apply list_fmap_ext. intros _ x _.
  case_bool_decide; [by apply Hfg | done].
Qed.

(** Updating by a key no entry carries changes nothing. *)
Lemma replaceById_absent (f : A → A) (k : string) (l : list A) :
  k ∉ key <$> l → replaceById key f k l = l.
Proof.
  intros Hk. unfold replaceById. rewrite <- (list_fmap_id l) at 2.
  apply list_fmap_ext. intros i x Hx. simpl.
  case_bool_decide as Hkx; [|done].
  exfalso. apply Hk. apply list_elem_of_fmap. exists x. split; [done|].
  apply list_elem_of_lookup. by exists i.
Qed.

End Composition.

Section Remaining.

Variable validateAdminPassword : string → bool.

(** ** Adding a discount *)

Lemma handleAddDiscount_roster (now : Z) (isoDate : string) (amt : Z)
    (why : string) (w : World) (M : Staff) :
  discountingStaff (ui w) = Some M →
  staff (ui (exec (handleAddDiscount now isoDate amt why) w)) =
  replaceById staff_id
    (fun s => withDiscounts s
                (discounts s ++ [activeDiscount now isoDate amt why]))
    (staff_id M) (staff (ui w)).
Proof. intros HM. unfold handleAddDiscount. step_comp. by rewrite HM. Qed.

(** X1.  With member [M] selected for a discount, [handleAddDiscount]
    appends one discount to every roster entry whose id is [M]'s id: it comes
    last, is active, has no cancellation reason, carries the submitted amount
    and reason, and takes its id from the clock; the earlier discounts and
    the other fields of those entries, and every entry with another id, are
    unchanged, and the selection is cleared. *)
Theorem handleAddDiscount_spec (now : Z) (isoDate : string) (amt : Z)
    (why : string) (w : World) (M : Staff) :
  discountingStaff (ui w) = Some M →
  let roster := staff (ui w) in
  let w' := exec (handleAddDiscount now isoDate amt why) w in
  let roster' := staff (ui w') in
  length roster' = length roster ∧
  discountingStaff (ui w') = None ∧
  requests w' = requests w ∧
  (∀ i s, roster !! i = Some s →
     (staff_id s ≠ staff_id M → roster' !! i = Some s) ∧
     (staff_id s = staff_id M →
        ∃ s' d, roster' !! i = Some s' ∧
                staff_id s' = staff_id s ∧ name s' = name s ∧
                code s' = code s ∧ profile s' = profile s ∧
                sales s' = sales s ∧
                discounts s' = discounts s ++ [d] ∧
                discount_id d = toString now ∧ date d = isoDate ∧
                amount d = amt ∧ reason d = why ∧
                status d = active ∧ cancellationReason d = None)).
Proof.
  intros HM roster w' roster'. subst roster'.
  split_and!.
  - subst w'. rewrite (handleAddDiscount_roster _ _ _ _ _ M) by done.
    apply replaceById_length.
  - subst w'. unfold handleAddDiscount. step_comp. by rewrite HM.
  - subst w'. unfold handleAddDiscount. step_comp. by rewrite HM.
  - intros i s Hi. subst w'.
    rewrite (handleAddDiscount_roster _ _ _ _ _ M) by done. split.
    + intros Hid. by apply replaceById_other.
    + intros Hid. eexists _, (activeDiscount now isoDate amt why).
      rewrite (replaceById_match _ _ _ _ _ _ Hi Hid).
      by split_and!.
Qed.

(** ** Toggling the commission flag of a sale *)

Lemma handleUpdateSale_roster (staffId saleId : string) (paid : bool)
    (w : World) :
  staff (ui (exec (handleUpdateSale staffId saleId paid) w)) =
  replaceById staff_id
    (fun s => withSales s
                (replaceById sale_id (fun sale => withCommission sale paid)
                   saleId (sales s)))
    staffId (staff (ui w)).
Proof. reflexivity. Qed.

(** X2.  [handleUpdateSale staffId saleId paid] sets the commission flag to
    [paid] on every sale with id [saleId] of every roster entry with id
    [staffId], leaving the sale's id and other fields, the other sales, the
    other fields of the entry and every other entry unchanged; it touches no
    selection and issues no save of its own. *)
Theorem handleUpdateSale_spec (staffId saleId : string) (paid : bool)
    (w : World) :
  let roster := staff (ui w) in
  let w' := exec (handleUpdateSale staffId saleId paid) w in
  let roster' := staff (ui w') in
  length roster' = length roster ∧
  selectedStaff (ui w') = selectedStaff (ui w) ∧
  requests w' = requests w ∧
  (∀ i s, roster !! i = Some s →
     (staff_id s ≠ staffId → roster' !! i = Some s) ∧
     (staff_id s = staffId →
        ∃ s', roster' !! i = Some s' ∧
              staff_id s' = staff_id s ∧ name s' = name s ∧
              code s' = code s ∧ profile s' = profile s ∧
              discounts s' = discounts s ∧
              length (sales s') = length (sales s) ∧
              ∀ j sale, sales s !! j = Some sale →
                (sale_id sale ≠ saleId → sales s' !! j = Some sale) ∧
                (sale_id sale = saleId →
                   ∃ sale', sales s' !! j = Some sale' ∧
                            commissionPaid sale' = paid ∧
                            sale_id sale' = sale_id sale ∧
                            sale_rest sale' = sale_rest sale))).
Proof.
  intros roster w' roster'. subst roster' w'.
  rewrite handleUpdateSale_roster. fold roster.
  split_and!; try reflexivity.
  - apply replaceById_length.
  - intros i s Hi. split.
    + intros Hid. by apply replaceById_other.
    + intros Hid. eexists.
      rewrite (replaceById_match _ _ _ _ _ _ Hi Hid).
      split_and!; try reflexivity; cbn -[replaceById].
      * apply replaceById_length.
      * intros j sale Hj. split.
        -- intros Hs. by apply replaceById_other.
        -- intros Hs. exists (withCommission sale paid).
           by rewrite (replaceById_match _ _ _ _ _ _ Hj Hs).
Qed.

(** ** What the updates do to the ids *)

Lemma byId_ids (F : Staff → Staff) (k : string) (l : list Staff) :
  (∀ s, staff_id (F s) = staff_id s) →
  staff_id <$> ((fun s => if bool_decide (staff_id s = k) then F s else s)
                  <$> l) = staff_id <$> l.
Proof. apply (replaceById_keys staff_id F k l). Qed.

(** X3.  Editing, adding a discount, cancelling a discount, clearing history
    and toggling a commission never add, drop, reorder or rename a member:
    the list of ids of the roster is the same before and after, whatever the
    selections and the password are. *)
Theorem updates_keep_member_ids (w : World) :
  (∀ staffData, memberIds (exec (handleEditStaff staffData) w) = memberIds w) ∧
  (∀ now isoDate amt why,
     memberIds (exec (handleAddDiscount now isoDate amt why) w) =
     memberIds w) ∧
  (∀ R, memberIds (exec (handleCancelDiscount R) w) = memberIds w) ∧
  (∀ password,
     memberIds (exec (handleClearHistory validateAdminPassword password) w) =
     memberIds w) ∧
  (∀ staffId saleId paid,
     memberIds (exec (handleUpdateSale staffId saleId paid) w) = memberIds w).
Proof.
  unfold memberIds, handleEditStaff, handleAddDiscount, handleCancelDiscount,
    handleClearHistory, handleUpdateSale.
  split_and!; intros; autounfold with comp; cbn -[fmap];
    repeat case_match; cbn -[fmap]; by rewrite ?byId_ids.
Qed.

Lemma rollbacksUnique_snoc (l : list SaveRequest) (q : SaveRequest) :
  rollbacksUnique l →
  (∀ previous, origin q = AfterDelete previous →
               NoDup (staff_id <$> previous)) →
  rollbacksUnique (l ++ [q]).
Proof.
  intros Hl Hq. apply Forall_app. split; [done|]. by constructor.
Qed.

Lemma handle_uniqueIds (e : Event) (w : World) :
  uniqueIds w → bringsFreshIds e w →
  uniqueIds (exec (handle validateAdminPassword e) w).
Proof.
  intros [Hnd Hin] Hsafe. unfold uniqueIds, memberIds in *.
  destruct e;
    unfold handle, handleAddStaff, handleEditStaff, handleAddDiscount,
      handleCancelDiscount, handleDeleteStaff, handleClearHistory,
      handleUpdateSale, loadResolved, loadRejected, loadSettled, saveSettled,
      saveRejected;
    autounfold with comp; cbn -[fmap filter] in *; repeat case_match;
    cbn -[fmap filter] in *; rewrite ?byId_ids by done;
    try (split; assumption).
  - destruct Hsafe as [?|Hfresh]; [discriminate|].
    split; [|done]. rewrite fmap_app. apply NoDup_app. split_and!; [done| |].
    + intros x Hx Hin'. apply list_elem_of_singleton in Hin'. by subst.
    + apply NoDup_singleton.
  - split; [by apply filter_ids_NoDup|].
    apply rollbacksUnique_snoc; [done|]. simpl. by intros previous [= <-].
  - split; [done|]. apply rollbacksUnique_snoc; [done|]. by simpl.
  - split; [apply NoDup_nil_2 | done].
  - split; [done | by apply Forall_delete].
  - split; [done | by apply Forall_delete].
  - split; [| by apply Forall_delete].
    unfold rollbacksUnique in Hin. rewrite Forall_lookup in Hin. eauto.
  - split; [done | by apply Forall_delete].
  - split; [done | by apply Forall_delete].
Qed.

Lemma saveEffect_uniqueIds (w : World) :
  uniqueIds w → uniqueIds (exec saveEffect w).
Proof.
  intros [Hnd Hin]. unfold uniqueIds, memberIds in *.
  rewrite saveEffect_ui. split; [done|].
  unfold saveEffect. step_comp. case_bool_decide; [|done].
  simpl. by apply rollbacksUnique_snoc.
Qed.

Lemma dispatch_uniqueIds (e : Event) (w : World) :
  uniqueIds w → bringsFreshIds e w →
  uniqueIds (exec (dispatch validateAdminPassword e) w).
Proof.
  intros Hw Hsafe. rewrite dispatch_unfold. cbv zeta.
  assert (uniqueIds (exec (handle validateAdminPassword e)
                       (exec clearStored w))) as H1.
  { apply handle_uniqueIds; [exact Hw | by destruct e]. }
  destruct (staffStored _); [by apply saveEffect_uniqueIds | done].
Qed.

(** X4.  Uniqueness of ids is kept by the whole event loop as long as no
    duplicate is brought in from outside: from a world whose ids are pairwise
    distinct (now and after any pending rollback), every run of events in
    which each add-mode submission comes at a clock value whose rendering is
    not yet an id, and each loaded array has pairwise distinct ids, ends in a
    world whose ids are pairwise distinct; deletions, rollbacks, edits and
    the other updates need no condition. *)
Theorem run_keeps_ids_unique (es : list Event) (w : World) :
  uniqueIds w →
  freshRun validateAdminPassword es w →
  uniqueIds (run validateAdminPassword es w) ∧
  NoDup (memberIds (run validateAdminPassword es w)).
Proof.
  revert w. induction es as [|e es IH]; intros w Hw Hrun.
  - split; [done | by destruct Hw].
  - destruct Hrun as [He Hes]. simpl. apply IH; [|done].
    by apply dispatch_uniqueIds.
Qed.

(** ** How the updates compose *)

Lemma cancelDiscount_twice (d : Discount) (R1 R2 : string) :
  cancelDiscount (cancelDiscount d R1) R2 = cancelDiscount d R2.
Proof. reflexivity. Qed.

Lemma cancelAll_snoc (R D : string) (ds : list Discount) (d : Discount) :
  discount_id d = D →
  replaceById discount_id (fun d => cancelDiscount d R) D (ds ++ [d]) =
  replaceById discount_id (fun d => cancelDiscount d R) D ds ++
  [cancelDiscount d R].
Proof.
  intros Hd. unfold replaceById. rewrite fmap_app. simpl.
  by rewrite bool_decide_eq_true_2.
Qed.

(** X5.  A discount added through the modal and then cancelled by its id:
    whatever happens in between that leaves the roster alone, every entry
    with the member's id ends with one discount more than it had, and that
    last discount is the added one, cancelled with the given reason, its id,
    date, amount and reason as submitted; entries with another id are as
    before.  The id given by the clock is never empty, so the cancellation is
    never skipped. *)
Theorem add_then_cancel_discount (now : Z) (isoDate : string) (amt : Z)
    (why R : string) (w later : World) (M sel : Staff) :
  discountingStaff (ui w) = Some M →
  staff (ui later) =
    staff (ui (exec (handleAddDiscount now isoDate amt why) w)) →
  selectedStaff (ui later) = Some sel →
  staff_id sel = staff_id M →
  cancellingDiscountId (ui later) = Some (toString now) →
  let roster := staff (ui w) in
  let roster'' := staff (ui (exec (handleCancelDiscount R) later)) in
  ∀ i s, roster !! i = Some s →
    (staff_id s ≠ staff_id M → roster'' !! i = Some s) ∧
    (staff_id s = staff_id M →
       ∃ s'', roster'' !! i = Some s'' ∧
              length (discounts s'') = S (length (discounts s)) ∧
              last (discounts s'') =
                Some {| discount_id := toString now; date := isoDate;
                        amount := amt; reason := why; status := cancelled;
                        cancellationReason := Some R |}).
Proof.
  intros HM Hlater Hsel Hid HD roster roster'' i s Hi. subst roster''.
  rewrite (handleCancelDiscount_roster R (toString now) later sel HD
             (toString_nonempty now) Hsel).
  rewrite Hlater, (handleAddDiscount_roster _ _ _ _ _ M HM), Hid.
  rewrite replaceById_compose by done. fold roster. split.
  - intros Hne. by apply replaceById_other.
  - intros He. eexists. rewrite (replaceById_match _ _ _ _ _ _ Hi He).
    split; [reflexivity|]. cbn -[replaceById].
    rewrite cancelAll_snoc by done. split.
    + rewrite length_app, replaceById_length. simpl. lia.
    + by rewrite last_snoc.
Qed.

(** X6.  Cancelling does not look at the status: cancelling the same discount
    id a second time, from the same member's history, gives the roster that
    the second cancellation alone would have given, so the reason recorded by
    the first cancellation is overwritten. *)
Theorem cancel_again_overwrites (R1 R2 D : string) (w later : World)
    (M sel : Staff) :
  cancellingDiscountId (ui w) = Some D → D ≠ "" →
  selectedStaff (ui w) = Some M →
  staff (ui later) = staff (ui (exec (handleCancelDiscount R1) w)) →
  cancellingDiscountId (ui later) = Some D →
  selectedStaff (ui later) = Some sel →
  staff_id sel = staff_id M →
  staff (ui (exec (handleCancelDiscount R2) later)) =
  staff (ui (exec (handleCancelDiscount R2) w)).
Proof.
  intros HD Hne HM Hlater HD' Hsel Hid.
  rewrite (handleCancelDiscount_roster R2 D later sel HD' Hne Hsel).
  rewrite (handleCancelDiscount_roster R2 D w M HD Hne HM).
  rewrite Hlater, (handleCancelDiscount_roster R1 D w M HD Hne HM), Hid.
  rewrite replaceById_compose by done.
  apply replaceById_ext. intros s _. cbn -[replaceById]. f_equal.
  rewrite replaceById_compose by done.
  apply replaceById_ext. intros d _. apply cancelDiscount_twice.
Qed.

Lemma spreadData_twice_same (s : Staff) (staffData : StaffData) :
  spreadData (spreadData s staffData) staffData = spreadData s staffData.
Proof.
  unfold spreadData. simpl. f_equal.
  by rewrite (assoc_L (∪)), (idemp_L (∪)).
Qed.

(** X7.  Two edits of the same member in a row merge field by field, the
    later submission winning: the entry keeps its id, sales and discounts,
    takes name and code from the second submission, and each other property
    from the second submission if it has it, else from the first, else from
    the member as it was.  Submitting the same values twice changes nothing
    the second time. *)
Theorem edit_twice_merges (first second : StaffData) (w later : World)
    (M E : Staff) :
  editingStaff (ui w) = Some M →
  staff (ui later) = staff (ui (exec (handleEditStaff first) w)) →
  editingStaff (ui later) = Some E →
  staff_id E = staff_id M →
  let roster := staff (ui w) in
  let roster'' := staff (ui (exec (handleEditStaff second) later)) in
  (∀ i s, roster !! i = Some s →
     (staff_id s ≠ staff_id M → roster'' !! i = Some s) ∧
     (staff_id s = staff_id M →
        ∃ s'', roster'' !! i = Some s'' ∧
               staff_id s'' = staff_id s ∧ sales s'' = sales s ∧
               discounts s'' = discounts s ∧
               name s'' = data_name second ∧ code s'' = data_code second ∧
               ∀ k, profile s'' !! k =
                    match data_profile second !! k with
                    | Some v => Some v
                    | None =>
                        match data_profile first !! k with
                        | Some v => Some v
                        | None => profile s !! k
                        end
                    end)) ∧
  (first = second → roster'' = staff (ui later)).
Proof.
  intros HM Hlater HE Hid roster roster''. subst roster''.
  rewrite (handleEditStaff_roster second later E HE), Hlater.
  rewrite (handleEditStaff_roster first w M HM), Hid. fold roster.
  split.
  - rewrite replaceById_compose by done. intros i s Hi. split.
    + intros Hne. by apply replaceById_other.
    + intros He. eexists. rewrite (replaceById_match _ _ _ _ _ _ Hi He).
      split; [reflexivity|].
      destruct (spreadData_fields (spreadData s first) second)
        as (H1 & H2 & H3 & H4 & H5 & H6).
      destruct (spreadData_fields s first) as (G1 & G2 & G3 & _ & _ & G6).
      split_and!; try done.
      intros k. rewrite H6. by rewrite G6.
  - intros <-. rewrite replaceById_compose by done.
    apply replaceById_ext. intros s _. apply spreadData_twice_same.
Qed.

(** X8.  Clearing history wipes what was added before: a discount added to a
    member and the history then cleared for the same id leaves every entry of
    that id exactly as clearing the original entry would, with empty sales
    and discounts, and every other entry as it was; clearing twice is
    clearing once. *)
Theorem clear_history_absorbs (password : string) (now : Z)
    (isoDate : string) (amt : Z) (why : string) (w later : World)
    (M C : Staff) :
  validateAdminPassword password = true →
  discountingStaff (ui w) = Some M →
  staff (ui later) =
    staff (ui (exec (handleAddDiscount now isoDate amt why) w)) →
  clearingHistoryStaff (ui later) = Some C →
  staff_id C = staff_id M →
  let roster := staff (ui w) in
  let cleared :=
    exec (handleClearHistory validateAdminPassword password) later in
  (∀ i s, roster !! i = Some s →
     (staff_id s ≠ staff_id M → staff (ui cleared) !! i = Some s) ∧
     (staff_id s = staff_id M →
        staff (ui cleared) !! i = Some (clearedHistory s))) ∧
  (∀ again, staff (ui again) = staff (ui cleared) →
            clearingHistoryStaff (ui again) = Some C →
            staff (ui (exec (handleClearHistory validateAdminPassword
                               password) again)) = staff (ui cleared)).
Proof.
  intros Hv HM Hlater HC Hid roster cleared. subst cleared.
  rewrite (handleClearHistory_roster validateAdminPassword password later C
             Hv HC), Hlater.
  rewrite (handleAddDiscount_roster _ _ _ _ _ M HM), Hid. fold roster.
  rewrite replaceById_compose by done. split.
  - intros i s Hi. split.
    + intros Hne. by apply replaceById_other.
    + intros He. by rewrite (replaceById_match _ _ _ _ _ _ Hi He).
  - intros again Hagain HC'.
    rewrite (handleClearHistory_roster validateAdminPassword password again C
               Hv HC'), Hagain, Hid.
    rewrite replaceById_compose by done.
    by apply replaceById_ext.
Qed.

(** ** Persistence through the event loop *)

(** A callback that stores no roster leaves the roster and the log of saves
    as they were. *)
Lemma handle_frame (e : Event) (w : World) :
  let w1 := exec (handle validateAdminPassword e) (exec clearStored w) in
  staffStored w1 = false →
  staff (ui w1) = staff (ui w) ∧ requests w1 = requests w.
Proof.
  destruct e;
    unfold handle, handleAddStaff, handleEditStaff, handleAddDiscount,
      handleCancelDiscount, handleDeleteStaff, handleClearHistory,
      handleUpdateSale, loadResolved, loadRejected, loadSettled, saveSettled,
      saveRejected, clearStored;
    autounfold with comp; cbn -[fmap filter]; repeat case_match;
    cbn -[fmap filter]; by intros.
Qed.

(** X9.  In every world the component reaches, a non-empty roster is the
    roster of the most recent call of [storage.staff.save], and that call is
    the one of the change effect: whatever the handlers did, the last thing
    asked of the storage is to hold the roster on screen. *)
Theorem last_save_is_current_roster (w : World) :
  reachable validateAdminPassword w →
  staff (ui w) ≠ [] →
  last (requests w) = Some {| saved := staff (ui w); origin := OnChange |}.
Proof.
  induction 1 as [|e w Hw IH He]; [done|].
  rewrite dispatch_unfold. cbv zeta.
  pose proof (handle_frame e w) as Hframe. cbv zeta in Hframe.
  set (w1 := exec (handle validateAdminPassword e) (exec clearStored w)) in *.
  destruct (staffStored w1) eqn:Hst.
  - rewrite saveEffect_ui. intros Hne.
    rewrite saveEffect_requests, bool_decide_eq_true_2.
    + by rewrite last_snoc.
    + destruct (staff (ui w1)); [done | simpl; lia].
  - destruct (Hframe eq_refl) as [-> ->]. exact IH.
Qed.

(** X10.  The load settles late: when it resolves to an array, that array
    replaces whatever roster was built in the meantime and, if non-empty, is
    at once saved back by the change effect (an empty array is stored and
    not saved); when it is rejected, whatever roster was built in the
    meantime is replaced by the empty roster, the failure is logged and
    nothing is saved. *)
Theorem load_settles_over_roster (w : World) :
  (∀ l, let w' := exec (dispatch validateAdminPassword
                          (ELoadResolved (LArray l))) w in
        staff (ui w') = l ∧ loading w' = false ∧ console w' = console w ∧
        requests w' =
          requests w ++
          match l with
          | [] => []
          | _ :: _ => [ {| saved := l; origin := OnChange |} ]
          end) ∧
  (∀ error, let w' := exec (dispatch validateAdminPassword
                              (ELoadRejected error)) w in
        staff (ui w') = [] ∧ loading w' = false ∧
        console w' = console w ++ [("Error loading staff:", error)] ∧
        requests w' = requests w).
Proof.
  split.
  - intros l. rewrite dispatch_unfold. destruct l as [|s l].
    + split_and!; try reflexivity. simpl. by rewrite app_nil_r.
    + by split_and!.
  - intros error. rewrite dispatch_unfold. by split_and!.
Qed.

(** X11.  A rejected save changes the screen only on the delete path: when
    the rejected promise is a save of the change effect, the failure is
    logged and the component state and alerts stay as they are; when it is
    the save of the clear-history handler, which attaches no callback,
    nothing at all is logged, alerted or rolled back; a save that resolves
    changes nothing either.  None of them issues a new save. *)
Theorem settled_save_without_rollback (w : World) (i : nat)
    (q : SaveRequest) (error : JSValue) :
  inflight w !! i = Some q →
  let rejected := exec (dispatch validateAdminPassword
                          (ESaveRejected i error)) w in
  let resolved := exec (dispatch validateAdminPassword (ESaveResolved i)) w in
  (origin q = OnChange →
     ui rejected = ui w ∧ alerts rejected = alerts w ∧
     requests rejected = requests w ∧
     console rejected = console w ++ [("Error saving staff:", error)]) ∧
  (origin q = AfterClear →
     ui rejected = ui w ∧ alerts rejected = alerts w ∧
     requests rejected = requests w ∧ console rejected = console w) ∧
  (ui resolved = ui w ∧ alerts resolved = alerts w ∧
   requests resolved = requests w ∧ console resolved = console w) ∧
  inflight resolved = delete i (inflight w).
Proof.
  intros Hi rejected resolved. subst rejected resolved.
  rewrite !dispatch_unfold. unfold handle, saveSettled, clearStored.
  autounfold with comp. cbn. rewrite Hi. cbn.
  split; [|split; [|split]].
  - intros Ho. rewrite Ho. cbn. by repeat split.
  - intros Ho. rewrite Ho. cbn. by repeat split.
  - by repeat split.
  - reflexivity.
Qed.

(** X12.  A confirmed deletion or history clearing that leaves a non-empty
    roster asks the storage twice for the same roster: once from the handler
    and once more from the change effect that follows it; when the deletion
    empties the roster, only the handler's save is issued. *)
Theorem confirmed_action_saves_twice (password : string) (w : World) :
  validateAdminPassword password = true →
  (∀ d, deletingStaffId (ui w) = Some d → d ≠ "" →
     let updated := filter (fun s => staff_id s ≠ d) (staff (ui w)) in
     requests (exec (dispatch validateAdminPassword (EDeleteConfirm password))
                 w) =
     requests w ++
     {| saved := updated; origin := AfterDelete (staff (ui w)) |} ::
     match updated with
     | [] => []
     | _ :: _ => [ {| saved := updated; origin := OnChange |} ]
     end) ∧
  (∀ M, clearingHistoryStaff (ui w) = Some M →
     let updated :=
       replaceById staff_id clearedHistory (staff_id M) (staff (ui w)) in
     requests (exec (dispatch validateAdminPassword (EClearConfirm password))
                 w) =
     requests w ++
     {| saved := updated; origin := AfterClear |} ::
     match updated with
     | [] => []
     | _ :: _ => [ {| saved := updated; origin := OnChange |} ]
     end).
Proof.
  intros Hv. split.
  - intros d Hd Hne updated. rewrite dispatch_unfold.
    unfold handle, handleDeleteStaff, clearStored, saveEffect.
    autounfold with comp. cbn -[filter].
    rewrite Hv, Hd, asTruthy_set by done. cbn -[filter]. fold updated.
    destruct updated; cbn;
      [ rewrite bool_decide_eq_false_2 by lia
      | rewrite bool_decide_eq_true_2 by lia ];
      cbn; by rewrite <- ?app_assoc.
  - intros M HM updated. rewrite dispatch_unfold.
    unfold handle, handleClearHistory, clearStored, saveEffect.
    autounfold with comp. cbn -[fmap].
    rewrite Hv, HM. cbn -[fmap].
    change ((fun s => if bool_decide (staff_id s = staff_id M)
                      then clearedHistory s else s) <$> staff (ui w))
      with updated.
    destruct updated; cbn;
      [ rewrite bool_decide_eq_false_2 by lia
      | rewrite bool_decide_eq_true_2 by lia ];
      cbn; by rewrite <- ?app_assoc.
Qed.

(** ** Modals *)

(** X13.  A confirmation that goes through closes its own modal, so it cannot
    be applied twice: after a form submission, a discount confirmation, a
    discount cancellation with the history panel open, or a deletion or
    history clearing with an accepted password, the same callback is no
    longer offered.  A confirmation that is refused leaves its modal open: a
    rejected password on the delete modal keeps the roster, records the
    inline error and saves nothing; on the clear-history modal it changes
    nothing at all; and confirming a cancellation while the history panel is
    closed does nothing and leaves the cancel modal open. *)
Theorem confirmation_closes_its_modal (e : Event) (w : World) :
  enabled e w = true →
  let w' := exec (dispatch validateAdminPassword e) w in
  match e with
  | EFormSubmit _ _ | EDiscountConfirm _ _ _ _ => enabled e w' = false
  | ECancelConfirm _ =>
      if isDefined (selectedStaff (ui w))
      then enabled e w' = false
      else enabled e w' = true ∧ ui w' = ui w ∧ requests w' = requests w
  | EDeleteConfirm password =>
      if validateAdminPassword password
      then enabled e w' = false ∧ deleteError (ui w') = ""
      else enabled e w' = true ∧ staff (ui w') = staff (ui w) ∧
           deleteError (ui w') = incorrectPassword ∧
           requests w' = requests w
  | EClearConfirm password =>
      if validateAdminPassword password
      then enabled e w' = false
      else enabled e w' = true ∧ ui w' = ui w ∧ console w' = console w ∧
           alerts w' = alerts w ∧ requests w' = requests w
  | _ => True
  end.
Proof.
  intros Hen w'. subst w'. rewrite dispatch_unfold.
  destruct e; try exact I;
    unfold enabled, truthyId in *;
    unfold handle, handleAddStaff, handleEditStaff, handleAddDiscount,
      handleCancelDiscount, handleDeleteStaff, handleClearHistory,
      clearStored, saveEffect;
    unfold isDefined in *;
    autounfold with comp; cbn -[fmap filter] in *; repeat case_match;
    simplify_eq; cbn -[fmap filter] in *; repeat case_match; simplify_eq;
    cbn -[fmap filter]; done.
Qed.

(** X14.  The history panel is rendered from the member stored when it was
    opened, and cancelling a discount replaces the roster entry without
    touching that stored member: after the cancellation of an active
    discount of the selected member, the roster entry carries the cancelled
    discount and is a different object, while the panel still holds the
    member with the discount as it was. *)
Theorem history_panel_keeps_old_member (R D : string) (w : World) (M : Staff)
    (i j : nat) (d : Discount) :
  cancellingDiscountId (ui w) = Some D → D ≠ "" →
  selectedStaff (ui w) = Some M →
  staff (ui w) !! i = Some M →
  discounts M !! j = Some d → discount_id d = D → status d = active →
  let w' := exec (dispatch validateAdminPassword (ECancelConfirm R)) w in
  selectedStaff (ui w') = Some M ∧
  ∃ s', staff (ui w') !! i = Some s' ∧ s' ≠ M ∧
        discounts s' !! j = Some (cancelDiscount d R) ∧
        status (cancelDiscount d R) = cancelled.
Proof.
  intros HD Hne HM Hi Hj Hd Hst w'.
  assert (ui w' = ui (exec (handleCancelDiscount R) w)) as Hui.
  { subst w'. rewrite dispatch_unfold. cbv zeta.
    destruct (staffStored _); [rewrite saveEffect_ui|];
      unfold handle, handleCancelDiscount, clearStored;
      autounfold with comp; cbn -[fmap]; by repeat case_match. }
  rewrite Hui. split.
  - unfold handleCancelDiscount. step_comp.
    by rewrite HD, asTruthy_set, HM.
  - rewrite (handleCancelDiscount_roster R D w M HD Hne HM).
    eexists. rewrite (replaceById_match _ _ _ _ _ _ Hi eq_refl).
    split; [reflexivity|].
    assert (discounts
              (withDiscounts M
                 (replaceById discount_id (fun d => cancelDiscount d R) D
                    (discounts M))) !! j = Some (cancelDiscount d R)) as Hnew.
    { cbn -[replaceById]. by rewrite (replaceById_match _ _ _ _ _ _ Hj Hd). }
    split_and!; [|exact Hnew | reflexivity].
    intros Heq. rewrite Heq, Hj in Hnew. injection Hnew as Hnew.
    rewrite Hnew in Hst. discriminate Hst.
Qed.

(** ** Adding members *)

Lemma filter_new_member (now : Z) (staffData : StaffData) (l : list Staff) :
  filter (fun s => staff_id s ≠ toString now)
    (l ++ [newStaffOf staffData (toString now)]) =
  filter (fun s => staff_id s ≠ toString now) l.
Proof.
  rewrite filter_app, filter_cons_False by (intros Hc; by apply Hc).
  by rewrite filter_nil, app_nil_r.
Qed.

(** X15.  A member added by the form can always be deleted again, because
    the id taken from the clock is never the empty string: deleting by that
    id with an accepted password removes the new member, and when the id was
    not in use before, the roster is exactly the roster of before the
    addition. *)
Theorem add_then_delete_restores (password : string) (now : Z)
    (staffData : StaffData) (w later : World) :
  validateAdminPassword password = true →
  staff (ui later) = staff (ui (exec (handleAddStaff now staffData) w)) →
  deletingStaffId (ui later) = Some (toString now) →
  let roster'' :=
    staff (ui (exec (handleDeleteStaff validateAdminPassword password)
                 later)) in
  roster'' = filter (fun s => staff_id s ≠ toString now) (staff (ui w)) ∧
  (toString now ∉ staff_id <$> roster'') ∧
  (toString now ∉ memberIds w → roster'' = staff (ui w)).
Proof.
  intros Hv Hlater Hd roster''.
  assert (roster'' =
          filter (fun s => staff_id s ≠ toString now) (staff (ui w))) as Hr.
  { subst roster''.
    rewrite (handleDeleteStaff_valid validateAdminPassword password
               (toString now) later Hv)
      by (rewrite Hd; apply asTruthy_set, toString_nonempty).
    step_comp. rewrite Hlater. unfold handleAddStaff. step_comp.
    apply filter_new_member. }
  split_and!; [exact Hr | |].
  - rewrite Hr. intros Hin.
    apply list_elem_of_fmap in Hin as (s & Hs & Hin).
    apply list_elem_of_filter in Hin as [Hne _]. by apply Hne.
  - intros Hfresh. rewrite Hr. by apply filter_keeps_all.
Qed.

Lemma addAll_ids (entries : list (Z * StaffData)) (w : World) :
  memberIds (addAll entries w) = memberIds w ++ (toString <$> entries.*1).
Proof.
  revert w. induction entries as [|[now staffData] entries IH]; intros w.
  - simpl. by rewrite app_nil_r.
  - unfold addAll in *. simpl. rewrite IH. unfold memberIds.
    rewrite handleAddStaff_ids. by rewrite <- app_assoc.
Qed.

(** X16.  Members added one after the other at pairwise different clock
    values get pairwise different ids: onto a roster with pairwise distinct
    ids, none of which is the rendering of one of the clock values, any
    number of additions gives a roster with pairwise distinct ids, one entry
    longer per addition, its ids being the old ones followed by the
    renderings of the clock values in order. *)
Theorem addAll_distinct_clock_values (entries : list (Z * StaffData))
    (w : World) :
  NoDup (memberIds w) →
  NoDup entries.*1 →
  (∀ now, now ∈ entries.*1 → toString now ∉ memberIds w) →
  memberIds (addAll entries w) = memberIds w ++ (toString <$> entries.*1) ∧
  NoDup (memberIds (addAll entries w)) ∧
  length (staff (ui (addAll entries w))) =
    (length (staff (ui w)) + length entries)%nat.
Proof.
  intros Hw Hnows Hfresh.
  pose proof (addAll_ids entries w) as Hids.
  split_and!; [exact Hids | |].
  - rewrite Hids. apply NoDup_app. split_and!; [done | |].
    + intros x Hx Hin. apply list_elem_of_fmap in Hin as (now & -> & Hnow).
      by apply (Hfresh now).
    + apply NoDup_fmap_2_strong; [|done].
      intros x y _ _. apply toString_inj.
  - apply (f_equal length) in Hids. unfold memberIds in Hids.
    rewrite length_app, !length_fmap in Hids. exact Hids.
Qed.

(** ** Rollback, routing and stale selections *)

Lemma dispatch_ui (e : Event) (w : World) :
  ui (exec (dispatch validateAdminPassword e) w) =
  ui (exec (handle validateAdminPassword e) (exec clearStored w)).
Proof.
  rewrite dispatch_unfold. cbv zeta.
  destruct (staffStored _); [apply saveEffect_ui | reflexivity].
Qed.

(** X17.  When the save of a deletion is rejected, the restored roster is
    not only put back on screen but, being stored anew, handed to the storage
    again by the change effect if it is non-empty; the rejected promise
    leaves the pending ones. *)
Theorem rollback_saves_restored_roster (w : World) (i : nat)
    (q : SaveRequest) (previous : list Staff) (error : JSValue) :
  inflight w !! i = Some q →
  origin q = AfterDelete previous →
  let w' := exec (dispatch validateAdminPassword (ESaveRejected i error)) w in
  staff (ui w') = previous ∧
  requests w' =
    requests w ++
    match previous with
    | [] => []
    | _ :: _ => [ {| saved := previous; origin := OnChange |} ]
    end ∧
  inflight w' =
    delete i (inflight w) ++
    match previous with
    | [] => []
    | _ :: _ => [ {| saved := previous; origin := OnChange |} ]
    end.
Proof.
  intros Hi Ho w'. subst w'. rewrite dispatch_unfold.
  unfold handle, saveSettled, clearStored, saveEffect.
  autounfold with comp. cbn. rewrite Hi. cbn. rewrite Ho. cbn.
  destruct previous; cbn;
    [ rewrite bool_decide_eq_false_2 by lia
    | rewrite bool_decide_eq_true_2 by lia ];
    cbn; by rewrite ?app_nil_r.
Qed.

(** X18.  The form's submit is routed by the member being edited: with one,
    the submission edits and the roster keeps its ids; with none, it adds
    one member whose id is the rendering of the clock.  Either way the form
    closes and no member is left selected for editing, and the button for a
    new member always leads to an addition, also when a member was being
    edited before. *)
Theorem form_submit_routing (now : Z) (staffData : StaffData) (w : World) :
  let w' := exec (dispatch validateAdminPassword (EFormSubmit now staffData))
              w in
  let viaNew :=
    exec (dispatch validateAdminPassword (EFormSubmit now staffData))
      (exec (dispatch validateAdminPassword ENewClicked) w) in
  memberIds w' =
    (if isDefined (editingStaff (ui w)) then memberIds w
     else memberIds w ++ [toString now]) ∧
  showStaffForm (ui w') = false ∧ editingStaff (ui w') = None ∧
  staff (ui viaNew) = staff (ui w) ++ [newStaffOf staffData (toString now)].
Proof.
  intros w' viaNew. subst w' viaNew. unfold memberIds.
  rewrite !dispatch_ui.
  unfold handle, handleAddStaff, handleEditStaff, clearStored, isDefined.
  autounfold with comp. cbn -[fmap].
  destruct (editingStaff (ui w)) as [M|] eqn:HE; cbn -[fmap];
    rewrite ?HE; cbn -[fmap].
  - rewrite byId_ids by done. by split_and!.
  - rewrite fmap_app. by split_and!.
Qed.

(** Updating by id with a function that fixes the entries of that id
    changes nothing. *)
Lemma replaceById_fixed {A} (key : A → string) (f : A → A) (k : string)
    (l : list A) :
  (∀ x, x ∈ l → key x = k → f x = x) → replaceById key f k l = l.
Proof.
  intros Hf. unfold replaceById. rewrite <- (list_fmap_id l) at 2.
  apply list_fmap_ext. intros i x Hx. simpl.
  case_bool_decide as Hk; [|done].
  apply Hf; [|done]. apply list_elem_of_lookup. by exists i.
Qed.

(** X19.  A selection can outlive its member.  When the id of the selected
    member is no longer in the roster, confirming the edit, the discount, the
    cancellation or the history clearing leaves the roster exactly as it is,
    and a deletion by an id that is not in the roster removes nothing; the
    delete and clear-history handlers still hand that unchanged roster to the
    storage. *)
Theorem stale_selection_changes_nothing (w : World) (M : Staff) :
  staff_id M ∉ memberIds w →
  (∀ staffData, editingStaff (ui w) = Some M →
     staff (ui (exec (handleEditStaff staffData) w)) = staff (ui w)) ∧
  (∀ now isoDate amt why, discountingStaff (ui w) = Some M →
     staff (ui (exec (handleAddDiscount now isoDate amt why) w)) =
     staff (ui w)) ∧
  (∀ R, selectedStaff (ui w) = Some M →
     staff (ui (exec (handleCancelDiscount R) w)) = staff (ui w)) ∧
  (∀ password, validateAdminPassword password = true →
     clearingHistoryStaff (ui w) = Some M →
     let w' := exec (handleClearHistory validateAdminPassword password) w in
     staff (ui w') = staff (ui w) ∧
     requests w' =
       requests w ++ [ {| saved := staff (ui w); origin := AfterClear |} ]) ∧
  (∀ password, validateAdminPassword password = true →
     deletingStaffId (ui w) = Some (staff_id M) → staff_id M ≠ "" →
     let w' := exec (handleDeleteStaff validateAdminPassword password) w in
     staff (ui w') = staff (ui w) ∧
     requests w' =
       requests w ++
       [ {| saved := staff (ui w); origin := AfterDelete (staff (ui w)) |} ]).
Proof.
  intros Habs. unfold memberIds in Habs. split_and!.
  - intros staffData HM. rewrite (handleEditStaff_roster _ _ M HM).
    by apply replaceById_absent.
  - intros now isoDate amt why HM.
    rewrite (handleAddDiscount_roster _ _ _ _ _ M HM).
    by apply replaceById_absent.
  - intros R HM. unfold handleCancelDiscount. step_comp. rewrite HM.
    destruct (asTruthy _); [|done]. cbn.
    by apply (replaceById_absent staff_id).
  - intros password Hv HM w'.
    assert (staff (ui w') = staff (ui w)) as Hs.
    { subst w'.
      rewrite (handleClearHistory_roster validateAdminPassword _ _ M Hv HM).
      by apply replaceById_absent. }
    split; [exact Hs|]. rewrite <- Hs. subst w'.
    unfold handleClearHistory. step_comp. by rewrite Hv, HM.
  - intros password Hv Hd Hne w'. subst w'.
    rewrite handleDeleteStaff_requests, Hv, Hd, asTruthy_set by done.
    rewrite (handleDeleteStaff_valid validateAdminPassword password
               (staff_id M) w Hv) by (by rewrite Hd, asTruthy_set).
    step_comp. by rewrite filter_keeps_all.
Qed.

Lemma withCommission_same (sale : Sale) :
  withCommission sale (commissionPaid sale) = sale.
Proof. by destruct sale. Qed.

Lemma withSales_same (s : Staff) : withSales s (sales s) = s.
Proof. by destruct s. Qed.

(** X20.  The commission flag is set, not toggled: setting it twice on the
    same sale of the same member gives what the second setting alone gives,
    and setting it to the value that every matching sale already has leaves
    the roster exactly as it is. *)
Theorem handleUpdateSale_sets_flag (staffId saleId : string)
    (paid paid' : bool) (w later : World) :
  staff (ui later) = staff (ui (exec (handleUpdateSale staffId saleId paid) w)) →
  staff (ui (exec (handleUpdateSale staffId saleId paid') later)) =
    staff (ui (exec (handleUpdateSale staffId saleId paid') w)) ∧
  ((∀ s sale, s ∈ staff (ui w) → staff_id s = staffId →
              sale ∈ sales s → sale_id sale = saleId →
              commissionPaid sale = paid) →
   staff (ui later) = staff (ui w)).
Proof.
  intros Hlater. rewrite !handleUpdateSale_roster, Hlater.
  rewrite handleUpdateSale_roster. split.
  - rewrite replaceById_compose by done.
    apply replaceById_ext. intros s _. cbn -[replaceById]. f_equal.
    rewrite replaceById_compose by done.
    by apply replaceById_ext.
  - intros Hall. apply replaceById_fixed. intros s Hs Hid.
    assert (replaceById sale_id (fun sale => withCommission sale paid) saleId
              (sales s) = sales s) as ->; [|apply withSales_same].
    apply replaceById_fixed. intros sale Hsale Hsid.
    rewrite <- (Hall s sale Hs Hid Hsale Hsid).
    apply withCommission_same.
Qed.

End Remaining.

(** * The remaining handlers run on concrete inputs *)

(** A discount of 50 for "promo" lands on the first member only. *)
Lemma handleAddDiscount_spec_witness :
  let w := run sampleCheck discountOpen mounted in
  let w' := exec (handleAddDiscount (tick + 1) (date promo) 50 "promo") w in
  discountingStaff (ui w) = Some anaMember ∧
  staff (ui w') !! 1%nat = Some luisLater ∧
  ∃ s' d, staff (ui w') !! 0%nat = Some s' ∧
          discounts s' = discounts anaMember ++ [d] ∧
          amount d = 50 ∧ status d = active.
Proof.
  intros w w'.
  assert (discountingStaff (ui w) = Some anaMember) as HM
    by (vm_compute; reflexivity).
  destruct (handleAddDiscount_spec (tick + 1) (date promo) 50 "promo" w
              anaMember HM) as (_ & _ & _ & Hidx).
  assert (staff (ui w) !! 0%nat = Some anaMember) as H0
    by (vm_compute; reflexivity).
  assert (staff (ui w) !! 1%nat = Some luisLater) as H1
    by (vm_compute; reflexivity).
  assert (staff_id luisLater ≠ staff_id anaMember) as Hother by discriminate.
  destruct (proj2 (Hidx 0%nat anaMember H0) eq_refl)
    as (s' & d & Hs' & _ & _ & _ & _ & _ & Hds & _ & _ & Ham & _ & Hst & _).
  refine (conj HM (conj (proj1 (Hidx 1%nat luisLater H1) Hother) _)).
  exists s', d. exact (conj Hs' (conj Hds (conj Ham Hst))).
Defined.

(** Two additions at different clock values, a deletion and its rollback:
    the ids stay pairwise distinct throughout. *)
Lemma run_keeps_ids_unique_witness :
  let es := twoAtTwoTicks ++
            [ EOnDelete (toString tick); EDeleteConfirm "admin";
              ESaveRejected 2 (VStr "quota") ] in
  uniqueIds mounted ∧ freshRun sampleCheck es mounted ∧
  NoDup (memberIds (run sampleCheck es mounted)) ∧
  memberIds (run sampleCheck es mounted) =
    ["1700000000000"; "1700000000005"].
Proof.
  intros es.
  assert (uniqueIds mounted) as H0.
  { split; [apply NoDup_nil_2 | constructor]. }
  assert (freshRun sampleCheck es mounted) as Hrun.
  { repeat (split; [first [exact I | right;
                           apply (bool_decide_unpack _); vm_compute; exact I]
                   |]).
    exact I. }
  assert (memberIds (run sampleCheck es mounted) =
          ["1700000000000"; "1700000000005"]) as Hids
    by (vm_compute; reflexivity).
  exact (conj H0 (conj Hrun
           (conj (proj2 (run_keeps_ids_unique sampleCheck es mounted H0 Hrun))
              Hids))).
Defined.

(** The scenario of the spec again, the two handlers one after the other. *)
Lemma add_then_cancel_discount_witness :
  let w := run sampleCheck discountOpen mounted in
  let later := run sampleCheck cancelOpen mounted in
  discountingStaff (ui w) = Some anaMember ∧
  selectedStaff (ui later) = Some anaWithPromo ∧
  cancellingDiscountId (ui later) = Some (toString (tick + 1)) ∧
  ∃ s'', staff (ui (exec (handleCancelDiscount "error") later)) !! 0%nat =
           Some s'' ∧
         last (discounts s'') = Some (cancelDiscount promo "error").
Proof.
  intros w later.
  assert (discountingStaff (ui w) = Some anaMember) as HM
    by (vm_compute; reflexivity).
  assert (staff (ui later) =
          staff (ui (exec (handleAddDiscount (tick + 1) (date promo) 50
                             "promo") w))) as Hlater
    by (vm_compute; reflexivity).
  assert (selectedStaff (ui later) = Some anaWithPromo) as Hsel
    by (vm_compute; reflexivity).
  assert (cancellingDiscountId (ui later) = Some (toString (tick + 1))) as HD
    by (vm_compute; reflexivity).
  assert (staff (ui w) !! 0%nat = Some anaMember) as H0
    by (vm_compute; reflexivity).
  destruct (proj2 (add_then_cancel_discount (tick + 1) (date promo) 50
                     "promo" "error" w later anaMember anaWithPromo HM Hlater
                     Hsel eq_refl HD 0%nat anaMember H0) eq_refl)
    as (s'' & Hs'' & _ & Hlast).
  refine (conj HM (conj Hsel (conj HD _))).
  exists s''. exact (conj Hs'' Hlast).
Defined.

(** The discount is cancelled for "error", then again for "duplicate": only
    the second reason is left. *)
Lemma cancel_again_overwrites_witness :
  let w := run sampleCheck cancelOpen mounted in
  let later := run sampleCheck
                 (cancelOpen ++
                  [ ECancelConfirm "error";
                    EHistoryCancelDiscount (discount_id promo) ]) mounted in
  staff (ui later) !! 0%nat =
    Some (withDiscounts anaMember [cancelDiscount promo "error"]) ∧
  staff (ui (exec (handleCancelDiscount "duplicate") later)) =
    staff (ui (exec (handleCancelDiscount "duplicate") w)) ∧
  staff (ui (exec (handleCancelDiscount "duplicate") w)) !! 0%nat =
    Some (withDiscounts anaMember [cancelDiscount promo "duplicate"]).
Proof.
  intros w later.
  assert (cancellingDiscountId (ui w) = Some (discount_id promo)) as HD
    by (vm_compute; reflexivity).
  assert (discount_id promo ≠ "") as Hne by discriminate.
  assert (selectedStaff (ui w) = Some anaWithPromo) as HM
    by (vm_compute; reflexivity).
  assert (staff (ui later) = staff (ui (exec (handleCancelDiscount "error") w)))
    as Hlater by (vm_compute; reflexivity).
  assert (cancellingDiscountId (ui later) = Some (discount_id promo)) as HD'
    by (vm_compute; reflexivity).
  assert (selectedStaff (ui later) = Some anaWithPromo) as Hsel
    by (vm_compute; reflexivity).
  assert (staff (ui later) !! 0%nat =
          Some (withDiscounts anaMember [cancelDiscount promo "error"])) as H1
    by (vm_compute; reflexivity).
  assert (staff (ui (exec (handleCancelDiscount "duplicate") w)) !! 0%nat =
          Some (withDiscounts anaMember [cancelDiscount promo "duplicate"]))
    as H2 by (vm_compute; reflexivity).
  exact (conj H1 (conj
           (cancel_again_overwrites "error" "duplicate" (discount_id promo)
              w later anaWithPromo anaWithPromo HD Hne HM Hlater HD' Hsel
              eq_refl) H2)).
Defined.

(** The first member is renamed, then edited again with a phone number. *)
Lemma edit_twice_merges_witness :
  let w := run sampleCheck (twoAtTwoTicks ++ [EOnEdit anaMember]) mounted in
  let later := run sampleCheck
                 (twoAtTwoTicks ++
                  [ EOnEdit anaMember; EFormSubmit (tick + 9) renamed;
                    EOnEdit (spreadData anaMember renamed) ]) mounted in
  editingStaff (ui w) = Some anaMember ∧
  editingStaff (ui later) = Some (spreadData anaMember renamed) ∧
  ∃ s'', staff (ui (exec (handleEditStaff withPhone) later)) !! 0%nat =
           Some s'' ∧
         staff_id s'' = staff_id anaMember ∧ name s'' = "Ana M." ∧
         code s'' = "A7".
Proof.
  intros w later.
  assert (editingStaff (ui w) = Some anaMember) as HM
    by (vm_compute; reflexivity).
  assert (staff (ui later) = staff (ui (exec (handleEditStaff renamed) w)))
    as Hlater by (vm_compute; reflexivity).
  assert (editingStaff (ui later) = Some (spreadData anaMember renamed))
    as HE by (vm_compute; reflexivity).
  assert (staff (ui w) !! 0%nat = Some anaMember) as H0
    by (vm_compute; reflexivity).
  destruct (edit_twice_merges renamed withPhone w later anaMember
              (spreadData anaMember renamed) HM Hlater HE eq_refl)
    as [Hidx _].
  destruct (proj2 (Hidx 0%nat anaMember H0) eq_refl)
    as (s'' & Hs'' & Hid & _ & _ & Hname & Hcode & _).
  refine (conj HM (conj HE _)).
  exists s''. exact (conj Hs'' (conj Hid (conj Hname Hcode))).
Defined.

(** The discount is added, then the history of the member is cleared. *)
Lemma clear_history_absorbs_witness :
  let w := run sampleCheck discountOpen mounted in
  let later := run sampleCheck
                 (discountOpen ++
                  [ EDiscountConfirm (tick + 1) (date promo) 50 "promo";
                    EOnClearHistory anaWithPromo ]) mounted in
  sampleCheck "admin" = true ∧
  clearingHistoryStaff (ui later) = Some anaWithPromo ∧
  staff (ui later) !! 0%nat = Some anaWithPromo ∧
  staff (ui (exec (handleClearHistory sampleCheck "admin") later)) !! 0%nat =
    Some (clearedHistory anaMember).
Proof.
  intros w later.
  assert (sampleCheck "admin" = true) as Hv by reflexivity.
  assert (discountingStaff (ui w) = Some anaMember) as HM
    by (vm_compute; reflexivity).
  assert (staff (ui later) =
          staff (ui (exec (handleAddDiscount (tick + 1) (date promo) 50
                             "promo") w))) as Hlater
    by (vm_compute; reflexivity).
  assert (clearingHistoryStaff (ui later) = Some anaWithPromo) as HC
    by (vm_compute; reflexivity).
  assert (staff (ui w) !! 0%nat = Some anaMember) as H0
    by (vm_compute; reflexivity).
  assert (staff (ui later) !! 0%nat = Some anaWithPromo) as H1
    by (vm_compute; reflexivity).
  destruct (clear_history_absorbs sampleCheck "admin" (tick + 1) (date promo)
              50 "promo" w later anaMember anaWithPromo Hv HM Hlater HC
              eq_refl) as [Hidx _].
  exact (conj Hv (conj HC (conj H1
           (proj2 (Hidx 0%nat anaMember H0) eq_refl)))).
Defined.

(** After two additions, the last save asked of the storage is the roster of
    two. *)
Lemma last_save_is_current_roster_witness :
  let w := run sampleCheck twoAtTwoTicks mounted in
  reachable sampleCheck w ∧
  staff (ui w) = [anaMember; luisLater] ∧
  last (requests w) =
    Some {| saved := [anaMember; luisLater]; origin := OnChange |}.
Proof.
  intros w.
  assert (reachable sampleCheck w) as Hr by (unfold w; reach).
  assert (staff (ui w) = [anaMember; luisLater]) as Hs
    by (vm_compute; reflexivity).
  assert (staff (ui w) ≠ []) as Hne by (rewrite Hs; discriminate).
  pose proof (last_save_is_current_roster sampleCheck w Hr Hne) as Hlast.
  rewrite Hs in Hlast.
  exact (conj Hr (conj Hs Hlast)).
Defined.

(** The save of the change effect is rejected after an addition; the save of
    the clear-history handler is rejected after a clearing. *)
Lemma settled_save_without_rollback_witness :
  let added := run sampleCheck [ENewClicked; EFormSubmit tick ana] mounted in
  let cleared := run sampleCheck
                   (twoAtTwoTicks ++
                    [EOnClearHistory anaMember; EClearConfirm "admin"])
                   mounted in
  (inflight added !! 0%nat =
     Some {| saved := [anaMember]; origin := OnChange |} ∧
   ui (exec (dispatch sampleCheck (ESaveRejected 0 (VStr "quota"))) added) =
     ui added ∧
   console (exec (dispatch sampleCheck (ESaveRejected 0 (VStr "quota")))
              added) =
     [("Error saving staff:", VStr "quota")]) ∧
  (inflight cleared !! 2%nat =
     Some {| saved := [anaMember; luisLater]; origin := AfterClear |} ∧
   ui (exec (dispatch sampleCheck (ESaveRejected 2 (VStr "quota"))) cleared) =
     ui cleared ∧
   console (exec (dispatch sampleCheck (ESaveRejected 2 (VStr "quota")))
              cleared) = []).
Proof.
  intros added cleared.
  assert (inflight added !! 0%nat =
          Some {| saved := [anaMember]; origin := OnChange |}) as Ha
    by (vm_compute; reflexivity).
  assert (inflight cleared !! 2%nat =
          Some {| saved := [anaMember; luisLater]; origin := AfterClear |})
    as Hc by (vm_compute; reflexivity).
  destruct (settled_save_without_rollback sampleCheck added 0%nat _
              (VStr "quota") Ha) as (H1 & _ & _ & _).
  destruct (settled_save_without_rollback sampleCheck cleared 2%nat _
              (VStr "quota") Hc) as (_ & H2 & _ & _).
  destruct (H1 eq_refl) as (Hu1 & _ & _ & Hc1).
  destruct (H2 eq_refl) as (Hu2 & _ & _ & Hc2).
  exact (conj (conj Ha (conj Hu1 Hc1)) (conj Hc (conj Hu2 Hc2))).
Defined.

(** Deleting one of two members, and clearing the history of one of two. *)
Lemma confirmed_action_saves_twice_witness :
  let deleting := run sampleCheck
                    (twoAtTwoTicks ++ [EOnDelete (toString tick)]) mounted in
  let clearing := run sampleCheck
                    (twoAtTwoTicks ++ [EOnClearHistory anaMember]) mounted in
  sampleCheck "admin" = true ∧
  requests (exec (dispatch sampleCheck (EDeleteConfirm "admin")) deleting) =
    requests deleting ++
    [ {| saved := [luisLater]; origin := AfterDelete [anaMember; luisLater] |};
      {| saved := [luisLater]; origin := OnChange |} ] ∧
  requests (exec (dispatch sampleCheck (EClearConfirm "admin")) clearing) =
    requests clearing ++
    [ {| saved := [anaMember; luisLater]; origin := AfterClear |};
      {| saved := [anaMember; luisLater]; origin := OnChange |} ].
Proof.
  intros deleting clearing.
  assert (sampleCheck "admin" = true) as Hv by reflexivity.
  assert (deletingStaffId (ui deleting) = Some (toString tick)) as Hd
    by (vm_compute; reflexivity).
  assert (toString tick ≠ "") as Hne by discriminate.
  assert (clearingHistoryStaff (ui clearing) = Some anaMember) as HM
    by (vm_compute; reflexivity).
  pose proof (proj1 (confirmed_action_saves_twice sampleCheck "admin"
                       deleting Hv) (toString tick) Hd Hne) as H1.
  pose proof (proj2 (confirmed_action_saves_twice sampleCheck "admin"
                       clearing Hv) anaMember HM) as H2.
  exact (conj Hv (conj H1 H2)).
Defined.

(** The delete modal: a wrong password leaves it open with the error, the
    right one closes it. *)
Lemma confirmation_closes_its_modal_witness :
  let w := run sampleCheck (twoAtTwoTicks ++ [EOnDelete (toString tick)])
             mounted in
  let refused := exec (dispatch sampleCheck (EDeleteConfirm "guess")) w in
  let accepted := exec (dispatch sampleCheck (EDeleteConfirm "admin")) w in
  enabled (EDeleteConfirm "guess") w = true ∧
  (enabled (EDeleteConfirm "guess") refused = true ∧
   staff (ui refused) = staff (ui w) ∧
   deleteError (ui refused) = incorrectPassword ∧
   requests refused = requests w) ∧
  (enabled (EDeleteConfirm "admin") accepted = false ∧
   deleteError (ui accepted) = "").
Proof.
  intros w refused accepted.
  assert (enabled (EDeleteConfirm "guess") w = true) as Hen
    by (vm_compute; reflexivity).
  exact (conj Hen (conj
           (confirmation_closes_its_modal sampleCheck
              (EDeleteConfirm "guess") w Hen)
           (confirmation_closes_its_modal sampleCheck
              (EDeleteConfirm "admin") w Hen))).
Defined.

(** After the cancellation the panel still holds the member with the active
    discount. *)
Lemma history_panel_keeps_old_member_witness :
  let w := run sampleCheck cancelOpen mounted in
  let w' := exec (dispatch sampleCheck (ECancelConfirm "error")) w in
  staff (ui w) !! 0%nat = Some anaWithPromo ∧
  selectedStaff (ui w') = Some anaWithPromo ∧
  discounts anaWithPromo !! 0%nat = Some promo ∧ status promo = active ∧
  ∃ s', staff (ui w') !! 0%nat = Some s' ∧ s' ≠ anaWithPromo ∧
        discounts s' !! 0%nat = Some (cancelDiscount promo "error").
Proof.
  intros w w'.
  assert (cancellingDiscountId (ui w) = Some (discount_id promo)) as HD
    by (vm_compute; reflexivity).
  assert (discount_id promo ≠ "") as Hne by discriminate.
  assert (selectedStaff (ui w) = Some anaWithPromo) as HM
    by (vm_compute; reflexivity).
  assert (staff (ui w) !! 0%nat = Some anaWithPromo) as Hi
    by (vm_compute; reflexivity).
  destruct (history_panel_keeps_old_member sampleCheck "error"
              (discount_id promo) w anaWithPromo 0%nat 0%nat promo HD Hne HM
              Hi eq_refl eq_refl eq_refl)
    as (Hsel & s' & Hs' & Hneq & Hd' & _).
  refine (conj Hi (conj Hsel (conj eq_refl (conj eq_refl _)))).
  exists s'. exact (conj Hs' (conj Hneq Hd')).
Defined.

(** The second member is added and deleted again. *)
Lemma add_then_delete_restores_witness :
  let w := run sampleCheck [ENewClicked; EFormSubmit tick ana; ENewClicked]
             mounted in
  let later := run sampleCheck
                 (twoAtTwoTicks ++ [EOnDelete (toString (tick + 5))])
                 mounted in
  sampleCheck "admin" = true ∧
  staff (ui later) = [anaMember; luisLater] ∧
  deletingStaffId (ui later) = Some (toString (tick + 5)) ∧
  (toString (tick + 5) ∉ memberIds w) ∧
  staff (ui (exec (handleDeleteStaff sampleCheck "admin") later)) =
    staff (ui w) ∧
  staff (ui w) = [anaMember].
Proof.
  intros w later.
  assert (sampleCheck "admin" = true) as Hv by reflexivity.
  assert (staff (ui later) =
          staff (ui (exec (handleAddStaff (tick + 5) luis) w))) as Hlater
    by (vm_compute; reflexivity).
  assert (staff (ui later) = [anaMember; luisLater]) as Hl
    by (vm_compute; reflexivity).
  assert (deletingStaffId (ui later) = Some (toString (tick + 5))) as Hd
    by (vm_compute; reflexivity).
  assert (toString (tick + 5) ∉ memberIds w) as Hfresh.
  { apply (bool_decide_unpack _). vm_compute. exact I. }
  assert (staff (ui w) = [anaMember]) as Hw by (vm_compute; reflexivity).
  destruct (add_then_delete_restores sampleCheck "admin" (tick + 5) luis w
              later Hv Hlater Hd) as (_ & _ & Hback).
  exact (conj Hv (conj Hl (conj Hd (conj Hfresh (conj (Hback Hfresh) Hw))))).
Defined.

(** Two additions, five milliseconds apart, onto the empty roster. *)
Lemma addAll_distinct_clock_values_witness :
  let entries := [(tick, ana); (tick + 5, luis)] in
  NoDup (memberIds mounted) ∧ NoDup entries.*1 ∧
  memberIds (addAll entries mounted) = ["1700000000000"; "1700000000005"] ∧
  NoDup (memberIds (addAll entries mounted)) ∧
  length (staff (ui (addAll entries mounted))) = 2%nat.
Proof.
  intros entries.
  assert (NoDup (memberIds mounted)) as H0 by apply NoDup_nil_2.
  assert (NoDup entries.*1) as H1.
  { apply (bool_decide_unpack _). vm_compute. exact I. }
  assert (∀ now, now ∈ entries.*1 → toString now ∉ memberIds mounted) as H2.
  { intros now _ Hin. by apply elem_of_nil in Hin. }
  destruct (addAll_distinct_clock_values entries mounted H0 H1 H2)
    as (Hids & Hnd & Hlen).
  exact (conj H0 (conj H1 (conj Hids (conj Hnd Hlen)))).
Defined.

(** The deletion of the first member is rejected: the roster of two is back
    and is saved once more. *)
Lemma rollback_saves_restored_roster_witness :
  let w := run sampleCheck
             (twoAtTwoTicks ++
              [EOnDelete (toString tick); EDeleteConfirm "admin"]) mounted in
  let w' := exec (dispatch sampleCheck (ESaveRejected 2 (VStr "quota"))) w in
  inflight w !! 2%nat =
    Some {| saved := [luisLater];
            origin := AfterDelete [anaMember; luisLater] |} ∧
  staff (ui w) = [luisLater] ∧
  staff (ui w') = [anaMember; luisLater] ∧
  requests w' =
    requests w ++
    [ {| saved := [anaMember; luisLater]; origin := OnChange |} ].
Proof.
  intros w w'.
  assert (inflight w !! 2%nat =
          Some {| saved := [luisLater];
                  origin := AfterDelete [anaMember; luisLater] |}) as Hi
    by (vm_compute; reflexivity).
  assert (staff (ui w) = [luisLater]) as Hs by (vm_compute; reflexivity).
  destruct (rollback_saves_restored_roster sampleCheck w 2%nat _
              [anaMember; luisLater] (VStr "quota") Hi eq_refl)
    as (H1 & H2 & _).
  exact (conj Hi (conj Hs (conj H1 H2))).
Defined.

(** Every modal was opened on a member that the load then dropped. *)
Lemma stale_selection_changes_nothing_witness :
  let w := run sampleCheck selectionsOutlived mounted in
  (staff_id anaMember ∉ memberIds w) ∧
  staff (ui w) = [luisLater] ∧
  editingStaff (ui w) = Some anaMember ∧
  deletingStaffId (ui w) = Some (staff_id anaMember) ∧
  staff (ui (exec (handleEditStaff renamed) w)) = staff (ui w) ∧
  staff (ui (exec (handleAddDiscount (tick + 1) (date promo) 50 "promo") w)) =
    staff (ui w) ∧
  staff (ui (exec (handleCancelDiscount "error") w)) = staff (ui w) ∧
  staff (ui (exec (handleClearHistory sampleCheck "admin") w)) =
    staff (ui w) ∧
  staff (ui (exec (handleDeleteStaff sampleCheck "admin") w)) = staff (ui w).
Proof.
  intros w.
  assert (staff_id anaMember ∉ memberIds w) as Habs.
  { apply (bool_decide_unpack _). vm_compute. exact I. }
  assert (staff (ui w) = [luisLater]) as Hs by (vm_compute; reflexivity).
  assert (editingStaff (ui w) = Some anaMember) as HE
    by (vm_compute; reflexivity).
  assert (discountingStaff (ui w) = Some anaMember) as HDi
    by (vm_compute; reflexivity).
  assert (selectedStaff (ui w) = Some anaMember) as HSe
    by (vm_compute; reflexivity).
  assert (clearingHistoryStaff (ui w) = Some anaMember) as HC
    by (vm_compute; reflexivity).
  assert (deletingStaffId (ui w) = Some (staff_id anaMember)) as HD
    by (vm_compute; reflexivity).
  assert (staff_id anaMember ≠ "") as Hne by discriminate.
  destruct (stale_selection_changes_nothing sampleCheck w anaMember Habs)
    as (H1 & H2 & H3 & H4 & H5).
  exact (conj Habs (conj Hs (conj HE (conj HD
           (conj (H1 renamed HE)
              (conj (H2 (tick + 1) (date promo) 50 "promo" HDi)
                 (conj (H3 "error" HSe)
                    (conj (proj1 (H4 "admin" eq_refl HC))
                       (proj1 (H5 "admin" eq_refl HD Hne)))))))))).
Defined.

(** The commission of the one sale is marked paid, then unpaid again. *)
Lemma handleUpdateSale_sets_flag_witness :
  let w := run sampleCheck [ELoadResolved (LArray [seller])] mounted in
  let paid := exec (handleUpdateSale (staff_id seller) "s1" true) w in
  let same := exec (handleUpdateSale (staff_id seller) "s1" false) w in
  staff (ui w) = [seller] ∧
  staff (ui paid) = [withSales seller [withCommission unpaidSale true]] ∧
  staff (ui (exec (handleUpdateSale (staff_id seller) "s1" false) paid)) =
    staff (ui same) ∧
  staff (ui same) = staff (ui w).
Proof.
  intros w paid same.
  assert (staff (ui w) = [seller]) as Hw by (vm_compute; reflexivity).
  assert (staff (ui paid) = [withSales seller [withCommission unpaidSale true]])
    as Hp by (vm_compute; reflexivity).
  assert (∀ s sale, s ∈ staff (ui w) → staff_id s = staff_id seller →
                    sale ∈ sales s → sale_id sale = "s1" →
                    commissionPaid sale = false) as Hall.
  { intros s sale Hin _ Hsale _. rewrite Hw in Hin.
    apply list_elem_of_singleton in Hin. subst s. simpl in Hsale.
    apply list_elem_of_singleton in Hsale. by subst sale. }
  exact (conj Hw (conj Hp (conj
           (proj1 (handleUpdateSale_sets_flag (staff_id seller)
                     "s1" true false w paid eq_refl))
           (proj2 (handleUpdateSale_sets_flag (staff_id seller)
                     "s1" false false w same eq_refl) Hall)))).
Defined.
